(** * InkyPi image-album plugin: the Immich provider and the plugin entry point

    A shallow embedding of [src/plugins/image_album/image_album.py].

    The Python code is sequential glue around three kinds of effects: HTTP
    requests to the photo service, one call to [random.choice] per download,
    and one [os.system] call.  They are modelled by a state-and-exception
    monad [M] over a [World] that records the trace of effects, running
    against an environment [Env] that fixes what the outside world answers
    (the service's replies, the random draws, and the Pillow functions the
    module calls but does not define).  The two [while] loops take fuel;
    running out of fuel is the outcome [OutOfFuel], which no [except] clause
    can catch. *)

From Stdlib Require Import ZArith List Lia Permutation.
From stdpp Require Import gmap strings list.
Import ListNotations.

Local Open Scope Z_scope.
Local Open Scope string_scope.
Local Open Scope list_scope.

(** ** Exceptions and outcomes *)

(** The exception classes the module can meet.  All of them derive from
    Python's [Exception]. *)
Inductive exn : Type :=
| IndexError (msg : string)
| ValueError (msg : string)
| AttributeError (msg : string)
| ConnectionError
| HTTPError (status_code : Z)
| UnidentifiedImageError
| RuntimeError (msg : string).

Inductive outcome (A : Type) : Type :=
| Return (a : A)
| Raise (e : exn)
| OutOfFuel.

Arguments Return {A} a.
Arguments Raise {A} e.
Arguments OutOfFuel {A}.

(** ** Data model *)

Definition bytes := list Byte.byte.

(** An entry of the JSON array answered by [GET /api/albums]. *)
Record Album : Type := mkAlbum {
  albumName : string;
  album_id : string
}.

(** An entry of [assets.items] in the answer of [POST /api/search/metadata]:
    [asset["id"]], [asset["exifInfo"]["exifImageWidth"]] and
    [asset["exifInfo"]["exifImageHeight"]]. *)
Record Asset : Type := mkAsset {
  asset_id : string;
  exifImageWidth : Z;
  exifImageHeight : Z
}.

(** The JSON body posted to the metadata search. *)
Record SearchBody : Type := mkSearchBody {
  albumIds : list string;
  size : Z;
  page : Z;
  withExif : bool
}.

(** The answer of the metadata search.  Both the ["assets"] key and the
    ["items"] key below it may be absent: the code reads them with
    [.get("assets", {}).get("items", [])]. *)
Record AssetsObject : Type := mkAssetsObject {
  items : option (list Asset)
}.

Record SearchResult : Type := mkSearchResult {
  assets : option AssetsObject
}.

(** What [requests.get]/[requests.post] gives back: a response with a status
    code and a payload, or no response at all (the call raises). *)
Inductive response (A : Type) : Type :=
| Response (status_code : Z) (payload : A)
| NoResponse.

Arguments Response {A} status_code payload.
Arguments NoResponse {A}.

(** A decoded image ([PIL.ImageFile.ImageFile]): its pixel size and raster. *)
Record ImageFile : Type := mkImage {
  width : Z;
  height : Z;
  raster : bytes
}.

(** The plugin host's device configuration, as far as the plugin reads it:
    [get_config("orientation")], [load_env_key("IMMICH_KEY")] and
    [get_resolution()]. *)
Record DeviceConfig : Type := mkDeviceConfig {
  config_orientation : string;
  env_IMMICH_KEY : option string;
  resolution : Z * Z
}.

Record ImmichProvider : Type := mkImmichProvider {
  base_url : string;
  key : string;
  orientation : string
}.

Definition headers (self : ImmichProvider) : list (string * string) :=
  [("x-api-key", key self)].

(** ** Effects *)

Inductive event : Type :=
| HttpGet (url : string) (hdrs : list (string * string))
| HttpPost (url : string) (json : SearchBody) (hdrs : list (string * string))
| Choice (population : list string)
| OsSystem (command : string).

(** The world threaded through a call: the effects so far, oldest first, and
    the number of random draws consumed. *)
Record World : Type := mkWorld {
  trace : list event;
  draws : nat
}.

Definition emit (e : event) (w : World) : World :=
  {| trace := trace w ++ [e]; draws := draws w |}.

(** Everything the module gets from outside. *)
Record Env : Type := mkEnv {
  (** the service's answer to [GET /api/albums] *)
  list_albums : response (list Album);
  (** the service's answer to [POST /api/search/metadata] *)
  search_metadata : SearchBody -> response SearchResult;
  (** the service's answer to [GET /api/assets/<id>/original] *)
  asset_original : string -> response bytes;
  (** the [n]-th draw of the random generator *)
  entropy : nat -> nat;
  (** [PIL.Image.open] on a byte buffer *)
  Image_open : bytes -> exn + ImageFile;
  (** [utils.image_utils.pad_image_blur] *)
  pad_image_blur : ImageFile -> Z * Z -> exn + ImageFile;
  (** [PIL.ImageColor.getcolor(_, "RGB")], on a colour string or on the
      tuple the code passes when no colour is configured *)
  ImageColor_getcolor : string + Z * Z * Z -> exn + Z * Z * Z;
  (** [PIL.ImageOps.pad(img, size, color=_, method=LANCZOS)] *)
  ImageOps_pad : ImageFile -> Z * Z -> Z * Z * Z -> exn + ImageFile
}.

(** ** The monad *)

Definition M (A : Type) : Type := World -> outcome A * World.

Definition ret {A} (a : A) : M A := fun w => (Return a, w).

Definition bind {A B} (m : M A) (k : A -> M B) : M B :=
  fun w =>
    match m w with
    | (Return a, w') => k a w'
    | (Raise e, w') => (Raise e, w')
    | (OutOfFuel, w') => (OutOfFuel, w')
    end.

Definition raise {A} (e : exn) : M A := fun w => (Raise e, w).

Definition out_of_fuel {A} : M A := fun w => (OutOfFuel, w).

(** [try: m except Exception as e: ...], with the handler left to the
    caller. *)
Definition try_except {A} (m : M A) : M (exn + A) :=
  fun w =>
    match m w with
    | (Return a, w') => (Return (inr a), w')
    | (Raise e, w') => (Return (inl e), w')
    | (OutOfFuel, w') => (OutOfFuel, w')
    end.

Definition lift {A} (r : exn + A) : M A :=
  match r with
  | inl e => raise e
  | inr a => ret a
  end.

Declare Scope py_scope.
Delimit Scope py_scope with py.
Notation "x <- m ;; k" := (bind m (fun x => k))
  (at level 100, m at next level, right associativity) : py_scope.
Notation "m ;;; k" := (bind m (fun _ => k))
  (at level 100, right associativity) : py_scope.
Local Open Scope py_scope.

(** Python truthiness of an optional string: [None] and [""] are falsy. *)
Definition truthy (s : option string) : bool :=
  match s with
  | Some s' => negb (String.eqb s' "")
  | None => false
  end.

(** [r.raise_for_status()] followed by reading the payload. *)
Definition raise_for_status {A} (r : response A) : M A :=
  match r with
  | Response code payload =>
      if ((400 <=? code) && (code <? 600))%Z then raise (HTTPError code)
      else ret payload
  | NoResponse => raise ConnectionError
  end.

(** [seq[0]] *)
Definition first_item {A} (seq : list A) : M A :=
  match seq with
  | [] => raise (IndexError "list index out of range")
  | a :: _ => ret a
  end.

(** [list.remove(x)]: drops the first item equal to [x]. *)
Fixpoint remove_first (x : string) (l : list string) : option (list string) :=
  match l with
  | [] => None
  | y :: l' =>
      if String.eqb y x then Some l'
      else option_map (cons y) (remove_first x l')
  end.

Definition list_remove (x : string) (l : list string) : M (list string) :=
  match remove_first x l with
  | Some l' => ret l'
  | None => raise (ValueError "list.remove(x): x not in list")
  end.

Section Provider.

Variable env : Env.

Definition requests_get_albums (self : ImmichProvider) : M (list Album) :=
  fun w =>
    raise_for_status (list_albums env)
      (emit (HttpGet (base_url self +:+ "/api/albums") (headers self)) w).

Definition requests_post_search (self : ImmichProvider) (body : SearchBody)
  : M SearchResult :=
  fun w =>
    raise_for_status (search_metadata env body)
      (emit (HttpPost (base_url self +:+ "/api/search/metadata") body
               (headers self)) w).

Definition requests_get_original (self : ImmichProvider) (id : string)
  : M bytes :=
  fun w =>
    raise_for_status (asset_original env id)
      (emit (HttpGet (base_url self +:+ "/api/assets/" +:+ id +:+ "/original")
               (headers self)) w).

(** [random.choice(seq)]: raises on the empty sequence, otherwise returns
    [seq[i]] for the index [i < len(seq)] the generator draws. *)
Definition choice (seq : list string) : M string :=
  fun w =>
    match seq with
    | [] => (Raise (IndexError "Cannot choose from an empty sequence"), w)
    | d :: _ =>
        (Return (nth (entropy env (draws w) mod length seq)%nat seq d),
         {| trace := trace w ++ [Choice seq]; draws := S (draws w) |})
    end.

Definition os_system (command : string) : M unit :=
  fun w => (Return tt, emit (OsSystem command) w).

(** *** [ImmichProvider.get_album_id] *)

(** The comprehension keeps the albums whose name equals the requested one,
    and [[0]] takes the first.  The value bound to [album] is then a JSON
    object, so the [album is None] test that follows in the source never
    holds and its [RuntimeError] is never raised. *)
Definition get_album_id (self : ImmichProvider) (album : string) : M string :=
  albums <- requests_get_albums self ;;
  album' <- first_item
              (List.filter (fun a => String.eqb (albumName a) album) albums) ;;
  ret (album_id album').

(** *** [ImmichProvider.get_aligned_images] *)

(** The test of line 66, on the EXIF size of an asset. *)
Definition exif_aligned (orientation : string) (asset : Asset) : bool :=
  let w := exifImageWidth asset in
  let h := exifImageHeight asset in
  (String.eqb orientation "horizontal" && (w >? h)%Z)
  || (String.eqb orientation "vertical" && (w <? h)%Z).

(** The [for] loop, with [items] as its accumulator. *)
Fixpoint for_asset_in (assets : list Asset) (orientation : string)
    (items : list Asset) : list Asset :=
  match assets with
  | [] => items
  | asset :: rest =>
      if exif_aligned orientation asset
      then for_asset_in rest orientation (items ++ [asset])
      else for_asset_in rest orientation items
  end.

Definition get_aligned_images (assets : list Asset) (orientation : string)
  : list Asset :=
  for_asset_in assets orientation [].

(** *** [ImmichProvider.get_asset_ids] *)

Definition search_body (album_id : string) (page : Z) : SearchBody :=
  {| albumIds := [album_id]; size := 1000; page := page; withExif := true |}.

(** [assets_data.get("assets", {}).get("items", [])] *)
Definition page_items_of (assets_data : SearchResult) : list Asset :=
  match assets assets_data with
  | Some a => match items a with Some l => l | None => [] end
  | None => []
  end.

(** [while page_items: ...].  [page_items] enters the loop as the non-empty
    list [[1]] and is afterwards the item list of the last page; the loop
    only ever tests whether it is empty, which is what [more] carries. *)
Fixpoint while_page_items (fuel : nat) (self : ImmichProvider)
    (album_id : string) (all_items : list Asset) (more : bool) (page : Z)
  : M (list Asset) :=
  if more then
    match fuel with
    | O => out_of_fuel
    | S fuel' =>
        assets_data <- requests_post_search self (search_body album_id page) ;;
        let page_items := page_items_of assets_data in
        while_page_items fuel' self album_id (all_items ++ page_items)
          (negb (Nat.eqb (length page_items) 0)) (page + 1)
    end
  else ret all_items.

Definition get_asset_ids (fuel : nat) (self : ImmichProvider)
    (album_id : string) (orientation : string) : M (list string) :=
  all_items <- while_page_items fuel self album_id [] true 1 ;;
  let all_items := get_aligned_images all_items orientation in
  ret (map asset_id all_items).

(** *** [ImmichProvider.get_image] *)

(** The test of line 92, on the pixel size of the downloaded image. *)
Definition pixel_aligned (orientation : string) (img : ImageFile) : bool :=
  (String.eqb orientation "horizontal" && (width img >? height img)%Z)
  || (String.eqb orientation "vertical" && (height img >? width img)%Z).

(** One pass through the body of [while not aligned] (lines 84 to 99): the
    image downloaded, the new value of [aligned], and the candidate list
    after the pass. *)
Definition download_pass (self : ImmichProvider) (orientation : string)
    (asset_ids : list string) : M (ImageFile * bool * list string) :=
  asset_id <- choice asset_ids ;;
  content <- requests_get_original self asset_id ;;
  img <- lift (Image_open env content) ;;
  if (1 <? length asset_ids)%nat then
    if pixel_aligned orientation img then ret (img, true, asset_ids)
    else
      asset_ids' <- list_remove asset_id asset_ids ;;
      ret (img, false, asset_ids')
  else ret (img, true, asset_ids).

(** [aligned] is [False] when the loop is entered, so the body runs before
    the first test that can leave the loop. *)
Fixpoint while_not_aligned (fuel : nat) (self : ImmichProvider)
    (orientation : string) (asset_ids : list string) : M ImageFile :=
  match fuel with
  | O => out_of_fuel
  | S fuel' =>
      pass <- download_pass self orientation asset_ids ;;
      let '(img, aligned, asset_ids') := pass in
      if aligned then ret img
      else while_not_aligned fuel' self orientation asset_ids'
  end.

Definition get_image (fuel : nat) (self : ImmichProvider) (album : string)
    (orientation : string) : M (option ImageFile) :=
  found <- try_except
             (album_id <- get_album_id self album ;;
              get_asset_ids fuel self album_id orientation) ;;
  match found with
  | inl e => ret None
  | inr asset_ids =>
      img <- while_not_aligned fuel self orientation asset_ids ;;
      ret (Some img)
  end.

(** ** [ImageAlbum.generate_image] *)

(** [settings.get(k) == lit] *)
Definition get_is (settings : gmap string string) (k lit : string) : bool :=
  match settings !! k with
  | Some v => String.eqb v lit
  | None => false
  end.

(** The [case "Immich":] branch (lines 120 to 135). *)
Definition case_Immich (fuel : nat) (settings : gmap string string)
    (device_config : DeviceConfig) (orientation : string)
  : M (option ImageFile) :=
  let key := env_IMMICH_KEY device_config in
  if negb (truthy key) then
    raise (RuntimeError "Immich API Key not configured.")
  else
    let url := settings !! "url" in
    if negb (truthy url) then raise (RuntimeError "URL is required.")
    else
      let album := settings !! "album" in
      if negb (truthy album) then raise (RuntimeError "Album is required.")
      else
        let provider :=
          mkImmichProvider (default "" url) (default "" key) orientation in
        img <- get_image fuel provider (default "" album) orientation ;;
        match img with
        | None => raise (RuntimeError "Failed to load image, please check logs.")
        | Some i => ret (Some i)
        end.

(** [settings.get('backgroundColor') or (255, 255, 255)] *)
Definition background_or_white (settings : gmap string string)
  : string + Z * Z * Z :=
  match settings !! "backgroundColor" with
  | Some c => if String.eqb c "" then inr (255, 255, 255) else inl c
  | None => inr (255, 255, 255)
  end.

(** The [match settings.get("albumProvider")] statement: the value left in
    [img], which starts as [None] and which only the one [case] assigns. *)
Definition match_albumProvider (fuel : nat) (settings : gmap string string)
    (device_config : DeviceConfig) (orientation : string)
  : M (option ImageFile) :=
  if get_is settings "albumProvider" "Immich"
  then case_Immich fuel settings device_config orientation
  else ret None.

Definition generate_image (fuel : nat) (settings : gmap string string)
    (device_config : DeviceConfig) : M ImageFile :=
  let orientation := config_orientation device_config in
  img <- match_albumProvider fuel settings device_config orientation ;;
  match img with
  | None => raise (RuntimeError "Failed to load image, please check logs.")
  | Some img =>
      if get_is settings "padImage" "true" then
        let dimensions := resolution device_config in
        let dimensions :=
          if String.eqb orientation "vertical"
          then (snd dimensions, fst dimensions) else dimensions in
        if get_is settings "backgroundOption" "blur" then
          lift (pad_image_blur env img dimensions)
        else
          background_color <-
            lift (ImageColor_getcolor env (background_or_white settings)) ;;
          lift (ImageOps_pad env img dimensions background_color)
      else
        os_system "sudo shutdown now" ;;;
        ret img
  end.

End Provider.

(** ** Sample environments *)

Module Sample.

Definition holiday : Album := mkAlbum "Holiday" "alb-1".
Definition family : Album := mkAlbum "Family" "alb-2".
Definition holiday2 : Album := mkAlbum "Holiday" "alb-3".

Definition wide : Asset := mkAsset "wide" 4000 3000.
Definition tall : Asset := mkAsset "tall" 3000 4000.
Definition square : Asset := mkAsset "square" 2000 2000.
Definition pano : Asset := mkAsset "pano" 8000 2000.

Definition page_of (l : list Asset) : response SearchResult :=
  Response 200 (mkSearchResult (Some (mkAssetsObject (Some l)))).

(** The encoded file of an asset is its id; decoding looks the size up. *)
Definition encode (id : string) : bytes := String.list_byte_of_string id.

Definition decode (b : bytes) : exn + ImageFile :=
  let id := String.string_of_list_byte b in
  if String.eqb id "wide" then inr (mkImage 4000 3000 b)
  else if String.eqb id "tall" then inr (mkImage 3000 4000 b)
  else if String.eqb id "square" then inr (mkImage 2000 2000 b)
  else if String.eqb id "pano" then inr (mkImage 2000 8000 b)
  else inl UnidentifiedImageError.

Definition no_pillow {A B} (_ : A) : exn + B :=
  inl (RuntimeError "not available").

(** A service with the given albums and the given pages of every album,
    followed by empty pages. *)
Definition service (albums : list Album) (pages : list (list Asset))
    (rand : nat -> nat) : Env :=
  {| list_albums := Response 200 albums;
     search_metadata := fun body =>
       page_of (nth (Z.to_nat (page body - 1)) pages []);
     asset_original := fun id => Response 200 (encode id);
     entropy := rand;
     Image_open := decode;
     pad_image_blur := fun _ _ => no_pillow tt;
     ImageColor_getcolor := no_pillow;
     ImageOps_pad := fun _ _ _ => no_pillow tt |}.

Definition immich : ImmichProvider :=
  mkImmichProvider "http://photos.local" "secret" "horizontal".

Definition w0 : World := {| trace := []; draws := 0 |}.

Definition device (o : string) : DeviceConfig :=
  {| config_orientation := o;
     env_IMMICH_KEY := Some "secret";
     resolution := (800, 480) |}.

Definition settings_immich : gmap string string :=
  <["albumProvider" := "Immich"]>
    (<["url" := "http://photos.local"]> (<["album" := "Holiday"]> ∅)).

End Sample.

(** ** Vocabulary of the statements *)

(** A status code on which [raise_for_status] does not raise. *)
Definition status_ok (code : Z) : Prop := ~ (400 <= code < 600)%Z.

Section Vocabulary.

Variable env : Env.
Variable self : ImmichProvider.
Variable album_id : string.
Variable orientation : string.
Variable device_config : DeviceConfig.

(** The request [get_album_id] sends. *)
Definition albums_request : event :=
  HttpGet (base_url self +:+ "/api/albums") (headers self).

(** The request for page [p]: page size 1000, EXIF data asked for. *)
Definition page_request (p : Z) : event :=
  HttpPost (base_url self +:+ "/api/search/metadata")
    {| albumIds := [album_id]; size := 1000; page := p; withExif := true |}
    (headers self).

(** The requests for the [n] pages from page [first] on. *)
Definition page_requests (first : Z) (n : nat) : list event :=
  map (fun i => page_request (first + Z.of_nat i)) (seq 0 n).

(** The service answers the request for page [p] with the items [l]. *)
Definition serves (p : Z) (l : list Asset) : Prop :=
  exists code res,
    search_metadata env (search_body album_id p) = Response code res
    /\ status_ok code
    /\ page_items_of res = l.

(** The id [random.choice] returns on the candidates [ids] in world [w]. *)
Definition picked (ids : list string) (w : World) : string :=
  nth (entropy env (draws w) mod length ids)%nat ids "".

Definition original_request (id : string) : event :=
  HttpGet (base_url self +:+ "/api/assets/" +:+ id +:+ "/original")
    (headers self).

(** The world after one pick and the download of the picked asset. *)
Definition after_download (ids : list string) (w : World) : World :=
  {| trace := trace w ++ [Choice ids; original_request (picked ids w)];
     draws := S (draws w) |}.

(** The download of asset [id] succeeds and decodes to [img]. *)
Definition downloads_as (id : string) (img : ImageFile) : Prop :=
  exists code content,
    asset_original env id = Response code content
    /\ status_ok code
    /\ Image_open env content = inr img.

(** The two effects of one round: the pick and the download. *)
Definition round_events (r : list string * string) : list event :=
  [Choice (fst r); original_request (snd r)].

(** [loop_reaches ids w ids' w'] : the loop entered with candidates [ids] in
    world [w] stands, after some rounds that all asked for another one, at
    the head of a round with candidates [ids'] in world [w']. *)
Inductive loop_reaches
  : list string -> World -> list string -> World -> Prop :=
| reaches_entry (ids : list string) (w : World) :
    loop_reaches ids w ids w
| reaches_retry (ids ids1 ids2 : list string) (w w1 w2 : World)
    (img : ImageFile) :
    download_pass env self orientation ids w = (Return (img, false, ids1), w1) ->
    loop_reaches ids1 w1 ids2 w2 ->
    loop_reaches ids w ids2 w2.

(** The canvas handed to the padding functions: the device resolution,
    swapped when the orientation is "vertical". *)
Definition canvas : Z * Z :=
  if String.eqb (config_orientation device_config) "vertical"
  then (snd (resolution device_config), fst (resolution device_config))
  else resolution device_config.

End Vocabulary.

(** ** The loop on the sample service *)

Module Run.

Import Sample.

(** Two landscape assets by EXIF; the file of "pano" is in fact portrait.
    The generator's draws all pick the second candidate. *)
Definition env : Env :=
  service [holiday] [[wide; tall]; [square; pano]] (fun _ => 1%nat).

Definition pano_img : ImageFile := mkImage 2000 8000 (encode "pano").

End Run.

(** ** [ImageAlbum.generate_settings_template] *)

Module Template.

(** The dictionary stored under ['api_key']. *)
Record api_key_entry : Type := mk_api_key_entry {
  required : bool;
  service : string;
  expected_key : string
}.

End Template.

(** The template of the base class is a dictionary whose values the plugin
    does not look at; the method assigns one key of it and returns it.  The
    values of the result are the plugin's entry ([inl]) or a value of the
    base template ([inr]). *)
Definition generate_settings_template {V : Type}
    (super_template : gmap string V)
  : gmap string (Template.api_key_entry + V) :=
  <["api_key" := inl (Template.mk_api_key_entry true "Immich" "IMMICH_KEY")]>
    (inr <$> super_template).

(** ** More vocabulary *)

(** The events the provider can cause: everything but [os.system]. *)
Definition provider_event (e : event) : bool :=
  match e with
  | OsSystem _ => false
  | _ => true
  end.

(** The test on a square asset. *)
Definition exif_square (asset : Asset) : bool :=
  (exifImageWidth asset =? exifImageHeight asset)%Z.

(** ** More sample services *)

Module Cases.

Import Sample.

(** A service that ignores the page number: every page has one item. *)
Definition endless : Env :=
  {| list_albums := Response 200 [holiday];
     search_metadata := fun _ => page_of [wide];
     asset_original := fun id => Response 200 (encode id);
     entropy := fun _ => 0%nat;
     Image_open := decode;
     pad_image_blur := fun _ _ => no_pillow tt;
     ImageColor_getcolor := no_pillow;
     ImageOps_pad := fun _ _ _ => no_pillow tt |}.

(** A service whose second page answers 500. *)
Definition failing_page : Env :=
  {| list_albums := Response 200 [holiday];
     search_metadata := fun body =>
       if (page body =? 2)%Z then Response 500 (mkSearchResult None)
       else page_of [wide; tall];
     asset_original := fun id => Response 200 (encode id);
     entropy := fun _ => 0%nat;
     Image_open := decode;
     pad_image_blur := fun _ _ => no_pillow tt;
     ImageColor_getcolor := no_pillow;
     ImageOps_pad := fun _ _ _ => no_pillow tt |}.

(** A service that lists assets but answers 404 to every download. *)
Definition missing_files : Env :=
  {| list_albums := Response 200 [holiday];
     search_metadata := fun body =>
       page_of (nth (Z.to_nat (page body - 1)) [[wide; pano]] []);
     asset_original := fun _ => Response 404 [];
     entropy := fun _ => 0%nat;
     Image_open := decode;
     pad_image_blur := fun _ _ => no_pillow tt;
     ImageColor_getcolor := no_pillow;
     ImageOps_pad := fun _ _ _ => no_pillow tt |}.

(** A working service with a Pillow that pads: the padded image has the
    size of the canvas and keeps the raster. *)
Definition padding : Env :=
  {| list_albums := Response 200 [holiday];
     search_metadata := fun body =>
       page_of (nth (Z.to_nat (page body - 1)) [[wide; tall]] []);
     asset_original := fun id => Response 200 (encode id);
     entropy := fun _ => 0%nat;
     Image_open := decode;
     pad_image_blur := fun img dims =>
       inr (mkImage (fst dims) (snd dims) (raster img));
     ImageColor_getcolor := fun c =>
       match c with
       | inl _ => inr (0, 0, 0)%Z
       | inr rgb => inr rgb
       end;
     ImageOps_pad := fun img dims _ =>
       inr (mkImage (fst dims) (snd dims) (raster img)) |}.

(** A service whose second reply has no ["assets"] key. *)
Definition keyless : Env :=
  {| list_albums := Response 200 [holiday];
     search_metadata := fun body =>
       if (page body =? 1)%Z then page_of [wide; tall]
       else Response 200 (mkSearchResult None);
     asset_original := fun id => Response 200 (encode id);
     entropy := fun _ => 0%nat;
     Image_open := decode;
     pad_image_blur := fun _ _ => no_pillow tt;
     ImageColor_getcolor := no_pillow;
     ImageOps_pad := fun _ _ _ => no_pillow tt |}.

(** Settings that ask for padding with blur. *)
Definition settings_blur : gmap string string :=
  <["padImage" := "true"]>
    (<["backgroundOption" := "blur"]> settings_immich).

(** Settings that ask for padding, with an empty background colour. *)
Definition settings_empty_colour : gmap string string :=
  <["padImage" := "true"]> (<["backgroundColor" := ""]> settings_immich).

(** A device without the API key in its environment. *)
Definition device_without_key : DeviceConfig :=
  {| config_orientation := "horizontal";
     env_IMMICH_KEY := None;
     resolution := (800, 480) |}.

End Cases.

(** ** Basic facts *)

Lemma eqb_string_true (a b : string) : String.eqb a b = true <-> a = b.
Proof. apply String.eqb_eq. Qed.

Lemma eqb_string_false (a b : string) : String.eqb a b = false <-> a <> b.
Proof. apply String.eqb_neq. Qed.

Lemma raise_for_status_ok {A} (code : Z) (payload : A) (w : World) :
  status_ok code -> raise_for_status (Response code payload) w = (Return payload, w).
Proof.
  unfold status_ok, raise_for_status. intros Hok.
  destruct (400 <=? code)%Z eqn:E1; destruct (code <? 600)%Z eqn:E2; simpl;
    try reflexivity.
  apply Z.leb_le in E1. apply Z.ltb_lt in E2. lia.
Qed.

Lemma raise_for_status_same_world {A} (r : response A) (w : World) :
  snd (raise_for_status r w) = w.
Proof.
  destruct r as [code payload|]; simpl; [|reflexivity].
  destruct ((400 <=? code)%Z && (code <? 600)%Z); reflexivity.
Qed.

Lemma remove_first_In (x : string) (l : list string) :
  In x l ->
  exists l', remove_first x l = Some l' /\ Permutation l (x :: l').
Proof.
  induction l as [|y l IH]; simpl; [tauto|].
  intros Hin. destruct (String.eqb y x) eqn:E.
  - apply eqb_string_true in E. subst y. exists l. split; reflexivity.
  - apply eqb_string_false in E.
    destruct Hin as [->|Hin]; [congruence|].
    destruct (IH Hin) as (l' & -> & Hp). exists (y :: l'). split; [reflexivity|].
    rewrite Hp. apply perm_swap.
Qed.

Lemma remove_first_Some_In (x : string) (l l' : list string) :
  remove_first x l = Some l' -> In x l.
Proof.
  revert l'. induction l as [|y l IH]; simpl; [discriminate|].
  intros l'. destruct (String.eqb y x) eqn:E.
  - apply eqb_string_true in E. auto.
  - destruct (remove_first x l); simpl; [|discriminate]. eauto.
Qed.

Lemma remove_first_incl (x : string) (l l' : list string) :
  remove_first x l = Some l' -> incl l' l.
Proof.
  intros H. destruct (remove_first_In x l (remove_first_Some_In _ _ _ H))
    as (l'' & H' & Hp).
  rewrite H in H'. injection H' as <-.
  intros y Hy. apply (Permutation_in y (Permutation_sym Hp)). now right.
Qed.

Lemma remove_first_length (x : string) (l l' : list string) :
  remove_first x l = Some l' -> length l = S (length l').
Proof.
  intros H. destruct (remove_first_In x l (remove_first_Some_In _ _ _ H))
    as (l'' & H' & Hp).
  rewrite H in H'. injection H' as <-.
  now rewrite (Permutation_length Hp).
Qed.

(** ** The orientation filter *)

Lemma for_asset_in_filter (orientation : string) (assets items : list Asset) :
  for_asset_in assets orientation items
  = items ++ List.filter (exif_aligned orientation) assets.
Proof.
  revert items. induction assets as [|a assets IH]; intros items; simpl.
  - now rewrite app_nil_r.
  - destruct (exif_aligned orientation a); rewrite IH; [|reflexivity].
    now rewrite <- app_assoc.
Qed.

Lemma get_aligned_images_filter (assets : list Asset) (orientation : string) :
  get_aligned_images assets orientation
  = List.filter (exif_aligned orientation) assets.
Proof. unfold get_aligned_images. now rewrite for_asset_in_filter. Qed.

Lemma exif_aligned_horizontal (a : Asset) :
  exif_aligned "horizontal" a = true
  <-> (exifImageWidth a > exifImageHeight a)%Z.
Proof.
  unfold exif_aligned. simpl. rewrite orb_false_r.
  rewrite Z.gtb_ltb, Z.ltb_lt. lia.
Qed.

Lemma exif_aligned_vertical (a : Asset) :
  exif_aligned "vertical" a = true
  <-> (exifImageWidth a < exifImageHeight a)%Z.
Proof. unfold exif_aligned. simpl. now rewrite Z.ltb_lt. Qed.

Lemma exif_aligned_cases (o : string) (a : Asset) :
  exif_aligned o a = true
  <-> (o = "horizontal" /\ (exifImageWidth a > exifImageHeight a)%Z)
      \/ (o = "vertical" /\ (exifImageWidth a < exifImageHeight a)%Z).
Proof.
  unfold exif_aligned.
  rewrite orb_true_iff, !andb_true_iff, !eqb_string_true, Z.gtb_ltb, !Z.ltb_lt.
  split; (intros [[Ho Hwh]|[Ho Hwh]]; [left|right]; (split; [exact Ho|lia])).
Qed.

(** C3.  [get_aligned_images] keeps, in the order of its input, exactly the
    assets that pass the EXIF test: for "horizontal" those of the input with
    width > height, for "vertical" those with width < height; an asset whose
    width equals its height is in neither output. *)
Theorem get_aligned_images_iff (assets : list Asset) (a : Asset) :
  (In a (get_aligned_images assets "horizontal")
   <-> In a assets /\ (exifImageWidth a > exifImageHeight a)%Z)
  /\ (In a (get_aligned_images assets "vertical")
      <-> In a assets /\ (exifImageWidth a < exifImageHeight a)%Z)
  /\ (exifImageWidth a = exifImageHeight a ->
      ~ In a (get_aligned_images assets "horizontal")
      /\ ~ In a (get_aligned_images assets "vertical")).
Proof.
  rewrite !get_aligned_images_filter, !filter_In.
  rewrite exif_aligned_horizontal, exif_aligned_vertical.
  repeat split; try tauto; lia.
Qed.

Lemma get_aligned_images_iff_witness :
  In Sample.wide
    (get_aligned_images [Sample.wide; Sample.tall; Sample.square] "horizontal")
  /\ ~ In Sample.square
       (get_aligned_images [Sample.wide; Sample.tall; Sample.square] "vertical").
Proof.
  split.
  - apply (get_aligned_images_iff
             [Sample.wide; Sample.tall; Sample.square] Sample.wide).
    split; [simpl; auto | reflexivity].
  - apply (get_aligned_images_iff
             [Sample.wide; Sample.tall; Sample.square] Sample.square).
    reflexivity.
Defined.

(** ** Resolving an album name *)

Lemma filter_name_none (album : string) (albums : list Album) :
  Forall (fun b => albumName b <> album) albums ->
  List.filter (fun a => String.eqb (albumName a) album) albums = [].
Proof.
  induction 1 as [|b albums Hb _ IH]; simpl; [reflexivity|].
  apply eqb_string_false in Hb. rewrite Hb. exact IH.
Qed.

Section AlbumId.

Variable env : Env.
Variable self : ImmichProvider.

(** A matching album: the id of the first one with that name is returned. *)
Lemma get_album_id_first_match (code : Z) (before after : list Album)
    (a : Album) (w : World) :
  list_albums env = Response code (before ++ a :: after) ->
  status_ok code ->
  Forall (fun b => albumName b <> albumName a) before ->
  get_album_id env self (albumName a) w
  = (Return (album_id a), emit (albums_request self) w).
Proof.
  intros Hresp Hok Hbefore.
  unfold get_album_id, bind, requests_get_albums.
  rewrite Hresp, raise_for_status_ok by exact Hok.
  rewrite List.filter_app, filter_name_none by exact Hbefore.
  cbn [List.filter app]. rewrite String.eqb_refl. reflexivity.
Qed.

(** No matching album: the comprehension is empty and [[0]] raises. *)
Lemma get_album_id_no_match (code : Z) (albums : list Album) (album : string)
    (w : World) :
  list_albums env = Response code albums ->
  status_ok code ->
  Forall (fun b => albumName b <> album) albums ->
  get_album_id env self album w
  = (Raise (IndexError "list index out of range"), emit (albums_request self) w).
Proof.
  intros Hresp Hok Hnone.
  unfold get_album_id, bind, requests_get_albums.
  rewrite Hresp, raise_for_status_ok by exact Hok.
  rewrite filter_name_none by exact Hnone. reflexivity.
Qed.

(** Whatever the service answers, [get_album_id] never raises the
    [RuntimeError] of line 32. *)
Lemma get_album_id_not_RuntimeError (album msg : string) (w : World) :
  fst (get_album_id env self album w) <> Raise (RuntimeError msg).
Proof.
  unfold get_album_id, bind, requests_get_albums.
  destruct (list_albums env) as [code albums|]; simpl; [|discriminate].
  destruct ((400 <=? code)%Z && (code <? 600)%Z); simpl; [discriminate|].
  destruct (List.filter _ albums); simpl; discriminate.
Qed.

End AlbumId.

(** C5.  With the albums "Family" on the service and "Holiday" asked for,
    [get_album_id] raises [IndexError] from the index access of line 29;
    the "Album ... not found." [RuntimeError] of line 32 is not what comes
    out. *)
Theorem get_album_id_missing_album_IndexError :
  get_album_id (Sample.service [Sample.family] [] (fun _ => 0%nat))
    Sample.immich "Holiday" Sample.w0
  = (Raise (IndexError "list index out of range"),
     {| trace := [HttpGet "http://photos.local/api/albums"
                    [("x-api-key", "secret")]];
        draws := 0 |})
  /\ forall msg,
       fst (get_album_id (Sample.service [Sample.family] [] (fun _ => 0%nat))
              Sample.immich "Holiday" Sample.w0)
       <> Raise (RuntimeError msg).
Proof.
  split; [reflexivity|]. intros msg. apply get_album_id_not_RuntimeError.
Qed.

(** ** The plugin entry point *)

Section Plugin.

Variable env : Env.
Variable fuel : nat.
Variable settings : gmap string string.
Variable device_config : DeviceConfig.

Lemma get_is_true (k lit : string) :
  get_is settings k lit = true <-> settings !! k = Some lit.
Proof.
  unfold get_is. destruct (settings !! k) as [v|]; [|split; discriminate].
  rewrite eqb_string_true. split; congruence.
Qed.

Lemma get_is_false (k lit : string) :
  get_is settings k lit = false <-> settings !! k <> Some lit.
Proof.
  rewrite <- get_is_true. destruct (get_is settings k lit); split; congruence.
Qed.

(** When the [match] statement leaves an image in [img], the provider is
    "Immich" and the image is the one [get_image] returned. *)
Lemma match_albumProvider_Some (w w1 : World) (img : ImageFile) :
  match_albumProvider env fuel settings device_config
    (config_orientation device_config) w = (Return (Some img), w1) ->
  settings !! "albumProvider" = Some "Immich"
  /\ exists url key album,
       settings !! "url" = Some url
       /\ env_IMMICH_KEY device_config = Some key
       /\ settings !! "album" = Some album
       /\ get_image env fuel
            (mkImmichProvider url key (config_orientation device_config))
            album (config_orientation device_config) w
          = (Return (Some img), w1).
Proof.
  unfold match_albumProvider.
  destruct (get_is settings "albumProvider" "Immich") eqn:Hp;
    [|discriminate].
  apply get_is_true in Hp. intros H. split; [exact Hp|].
  unfold case_Immich in H.
  destruct (env_IMMICH_KEY device_config) as [k|]; simpl in H;
    [|discriminate].
  destruct (negb (negb (k =? ""))%string); [discriminate|].
  destruct (settings !! "url") as [u|]; simpl in H; [|discriminate].
  destruct (negb (negb (u =? ""))%string); [discriminate|].
  destruct (settings !! "album") as [al|]; simpl in H; [|discriminate].
  destruct (negb (negb (al =? ""))%string); [discriminate|].
  exists u, k, al. repeat split.
  unfold bind in H.
  destruct (get_image _ _ _ _ _ w) as [[[i|]| |] w'];
    simpl in H; try discriminate.
  now injection H as -> ->.
Qed.

(** C10.  When [settings.get("albumProvider")] is absent or is not "Immich",
    [generate_image] raises [RuntimeError("Failed to load image, please check
    logs.")] and leaves the world as it found it: no request was sent and no
    other effect took place. *)
Theorem generate_image_unknown_provider (w : World) :
  settings !! "albumProvider" <> Some "Immich" ->
  generate_image env fuel settings device_config w
  = (Raise (RuntimeError "Failed to load image, please check logs."), w).
Proof.
  intros Hp. apply get_is_false in Hp.
  unfold generate_image, match_albumProvider, bind. now rewrite Hp.
Qed.

(** C8.  When [settings.get('padImage')] is not "true" and the provider
    returned an image, [generate_image] returns that very image, and the last
    effect before it returns is [os.system("sudo shutdown now")]. *)
Theorem generate_image_unpadded_shutdown (w w1 : World) (img : ImageFile) :
  settings !! "padImage" <> Some "true" ->
  match_albumProvider env fuel settings device_config
    (config_orientation device_config) w = (Return (Some img), w1) ->
  generate_image env fuel settings device_config w
  = (Return img,
     {| trace := trace w1 ++ [OsSystem "sudo shutdown now"];
        draws := draws w1 |})
  /\ exists provider album,
       get_image env fuel provider album (config_orientation device_config) w
       = (Return (Some img), w1).
Proof.
  intros Hpad Himg. split.
  - apply get_is_false in Hpad.
    unfold generate_image, bind. rewrite Himg, Hpad. reflexivity.
  - destruct (match_albumProvider_Some _ _ _ Himg)
      as (_ & url & k & album & _ & _ & _ & Hget).
    eauto.
Qed.

(** With padding asked for, no blur, and no background colour set, the
    result is whatever Pillow makes of the tuple [(255, 255, 255)] and of
    the image on the canvas; the world is not touched again. *)
Lemma generate_image_pad_default_colour (w w1 : World) (img : ImageFile) :
  settings !! "padImage" = Some "true" ->
  settings !! "backgroundOption" <> Some "blur" ->
  settings !! "backgroundColor" = None ->
  match_albumProvider env fuel settings device_config
    (config_orientation device_config) w = (Return (Some img), w1) ->
  generate_image env fuel settings device_config w
  = match ImageColor_getcolor env (inr (255, 255, 255)%Z) with
    | inl e => (Raise e, w1)
    | inr colour =>
        match ImageOps_pad env img (canvas device_config) colour with
        | inl e => (Raise e, w1)
        | inr padded => (Return padded, w1)
        end
    end.
Proof.
  intros Hpad Hblur Hcol Himg.
  apply get_is_true in Hpad. apply get_is_false in Hblur.
  unfold generate_image. unfold bind at 1. rewrite Himg, Hpad, Hblur.
  unfold background_or_white. rewrite Hcol. unfold bind, canvas.
  destruct (ImageColor_getcolor env _) as [e|colour]; [reflexivity|].
  simpl. destruct (ImageOps_pad env img _ colour); reflexivity.
Qed.

End Plugin.

Lemma generate_image_unknown_provider_witness :
  generate_image (Sample.service [Sample.holiday] [[Sample.wide]] (fun _ => 0%nat))
    3 (<["albumProvider" := "GooglePhotos"]> Sample.settings_immich)
    (Sample.device "horizontal") Sample.w0
  = (Raise (RuntimeError "Failed to load image, please check logs."),
     Sample.w0).
Proof.
  apply generate_image_unknown_provider. vm_compute. discriminate.
Defined.

Lemma generate_image_unpadded_shutdown_witness :
  exists img w1,
    generate_image
      (Sample.service [Sample.holiday] [[Sample.wide; Sample.tall]]
         (fun _ => 0%nat))
      3 (<["padImage" := "false"]> Sample.settings_immich)
      (Sample.device "horizontal") Sample.w0
    = (Return img,
       {| trace := trace w1 ++ [OsSystem "sudo shutdown now"];
          draws := draws w1 |}).
Proof.
  eexists. eexists.
  eapply generate_image_unpadded_shutdown.
  - vm_compute. discriminate.
  - vm_compute. reflexivity.
Defined.

(** ** Pagination *)

Section Pagination.

Variable env : Env.
Variable self : ImmichProvider.
Variable album_id : string.

Lemma while_page_items_done (fuel : nat) (all_items : list Asset) (p : Z) :
  while_page_items env fuel self album_id all_items false p = ret all_items.
Proof. destruct fuel; reflexivity. Qed.

Lemma while_page_items_step (fuel : nat) (all_items l : list Asset) (p : Z)
    (w : World) :
  serves env album_id p l ->
  while_page_items env (S fuel) self album_id all_items true p w
  = while_page_items env fuel self album_id (all_items ++ l)
      (negb (Nat.eqb (length l) 0)) (p + 1) (emit (page_request self album_id p) w).
Proof.
  intros (code & res & Hresp & Hok & Hitems).
  cbn [while_page_items]. unfold bind at 1. unfold requests_post_search.
  rewrite Hresp, raise_for_status_ok by exact Hok.
  rewrite Hitems. reflexivity.
Qed.

Lemma page_requests_cons (first : Z) (n : nat) :
  page_requests self album_id first (S n)
  = page_request self album_id first :: page_requests self album_id (first + 1) n.
Proof.
  unfold page_requests. cbn [seq map]. rewrite Z.add_0_r. f_equal.
  rewrite <- seq_shift, map_map. apply map_ext. intros i.
  f_equal. lia.
Qed.

Lemma while_page_items_pages (pages : list (list Asset)) :
  forall (fuel : nat) (first : Z) (all_items : list Asset) (w : World),
    Forall (fun l => l <> []) pages ->
    (forall i l, pages !! i = Some l -> serves env album_id (first + Z.of_nat i) l) ->
    serves env album_id (first + Z.of_nat (length pages)) [] ->
    (length pages < fuel)%nat ->
    while_page_items env fuel self album_id all_items true first w
    = (Return (all_items ++ concat pages),
       {| trace := trace w ++ page_requests self album_id first (S (length pages));
          draws := draws w |}).
Proof.
  induction pages as [|l pages IH]; intros fuel first all_items w Hne Hsrv Hend Hfuel.
  - destruct fuel as [|fuel]; [simpl in Hfuel; lia|].
    simpl in Hend. rewrite Z.add_0_r in Hend.
    rewrite (while_page_items_step _ _ _ _ _ Hend). simpl.
    rewrite while_page_items_done, page_requests_cons. reflexivity.
  - destruct fuel as [|fuel]; [simpl in Hfuel; lia|].
    assert (Hl : serves env album_id first l).
    { specialize (Hsrv 0%nat l eq_refl). now rewrite Z.add_0_r in Hsrv. }
    rewrite (while_page_items_step _ _ _ _ _ Hl).
    inversion Hne as [|? ? Hl_ne Hne']; subst.
    replace (negb (Nat.eqb (length l) 0)) with true
      by (destruct l; [congruence|reflexivity]).
    rewrite IH.
    + simpl concat. rewrite app_assoc. f_equal.
      rewrite (page_requests_cons first). unfold emit. simpl.
      now rewrite <- app_assoc.
    + exact Hne'.
    + intros i l' Hi. specialize (Hsrv (S i) l' Hi).
      now replace (first + 1 + Z.of_nat i)%Z with (first + Z.of_nat (S i))%Z
        by lia.
    + simpl in Hend.
      now replace (first + 1 + Z.of_nat (length pages))%Z
        with (first + Z.of_nat (S (length pages)))%Z by lia.
    + simpl in Hfuel. lia.
Qed.

(** The loop stops at no page that has items: against a service whose pages
    all have items, every amount of fuel runs out. *)
Lemma while_page_items_needs_empty_page :
  forall (fuel : nat) (first : Z) (all_items : list Asset) (w : World),
    (forall p, (first <= p)%Z -> exists l, l <> [] /\ serves env album_id p l) ->
    fst (while_page_items env fuel self album_id all_items true first w)
    = OutOfFuel.
Proof.
  induction fuel as [|fuel IH]; intros first all_items w Hall; [reflexivity|].
  destruct (Hall first (Z.le_refl _)) as (l & Hl & Hs).
  rewrite (while_page_items_step _ _ _ _ _ Hs).
  replace (negb (Nat.eqb (length l) 0)) with true
    by (destruct l; [congruence|reflexivity]).
  apply IH. intros p Hp. apply Hall. lia.
Qed.

(** C2.  For an album whose service answers pages 1 to k with the non-empty
    item lists [pages] and page k+1 with no items, [get_asset_ids] sends
    exactly the k+1 requests for pages 1, 2, ..., k+1, each with page size
    1000, and the list it accumulates is the concatenation of the k pages in
    order; its result is the ids of the orientation filter applied to that
    list. *)
Theorem get_asset_ids_pagination (pages : list (list Asset)) (fuel : nat)
    (orientation : string) (w : World) :
  Forall (fun l => l <> []) pages ->
  (forall i l, pages !! i = Some l -> serves env album_id (1 + Z.of_nat i) l) ->
  serves env album_id (1 + Z.of_nat (length pages)) [] ->
  (length pages < fuel)%nat ->
  let w' := {| trace := trace w ++ page_requests self album_id 1 (S (length pages));
               draws := draws w |} in
  while_page_items env fuel self album_id [] true 1 w
  = (Return (concat pages), w')
  /\ get_asset_ids env fuel self album_id orientation w
     = (Return (map asset_id (get_aligned_images (concat pages) orientation)),
        w')
  /\ length (page_requests self album_id 1 (S (length pages))) = S (length pages).
Proof.
  intros Hne Hsrv Hend Hfuel w'.
  pose proof (while_page_items_pages pages fuel 1 [] w Hne Hsrv Hend Hfuel)
    as Hloop.
  simpl app in Hloop. fold w' in Hloop.
  split; [exact Hloop|]. split.
  - unfold get_asset_ids, bind. rewrite Hloop. reflexivity.
  - unfold page_requests. now rewrite length_map, length_seq.
Qed.

End Pagination.

Lemma get_asset_ids_pagination_witness :
  get_asset_ids
    (Sample.service [Sample.holiday]
       [[Sample.wide; Sample.tall]; [Sample.square; Sample.pano]]
       (fun _ => 0%nat))
    3 Sample.immich "alb-1" "horizontal" Sample.w0
  = (Return ["wide"; "pano"],
     {| trace := [page_request Sample.immich "alb-1" 1;
                  page_request Sample.immich "alb-1" 2;
                  page_request Sample.immich "alb-1" 3];
        draws := 0 |}).
Proof.
  apply (get_asset_ids_pagination
           (Sample.service [Sample.holiday]
              [[Sample.wide; Sample.tall]; [Sample.square; Sample.pano]]
              (fun _ => 0%nat))
           Sample.immich "alb-1"
           [[Sample.wide; Sample.tall]; [Sample.square; Sample.pano]]
           3 "horizontal" Sample.w0).
  - repeat constructor; discriminate.
  - intros [|[|i]] l Hl; simpl in Hl; try discriminate;
      injection Hl as <-; exists 200%Z; eexists;
      (split; [reflexivity|split; [unfold status_ok; lia|reflexivity]]).
  - exists 200%Z. eexists.
    split; [reflexivity|split; [unfold status_ok; lia|reflexivity]].
  - simpl. lia.
Defined.

(** ** The download loop *)

Section Download.

Variable env : Env.
Variable self : ImmichProvider.
Variable orientation : string.

Lemma picked_In (ids : list string) (w : World) :
  ids <> [] -> In (picked env ids w) ids.
Proof.
  intros Hne. unfold picked. apply nth_In. apply Nat.mod_upper_bound.
  destruct ids; [congruence|discriminate].
Qed.

(** Every candidate can be the pick: the draw decides. *)
Lemma picked_any (ids : list string) (w : World) (i : nat) :
  (i < length ids)%nat ->
  entropy env (draws w) = i ->
  picked env ids w = nth i ids "".
Proof.
  intros Hi Hdraw. unfold picked. now rewrite Hdraw, Nat.mod_small.
Qed.

Lemma choice_nonempty (ids : list string) (w : World) :
  ids <> [] ->
  choice env ids w
  = (Return (picked env ids w),
     {| trace := trace w ++ [Choice ids]; draws := S (draws w) |}).
Proof.
  intros Hne. destruct ids as [|d ids']; [congruence|].
  unfold choice, picked. do 2 f_equal. apply nth_indep.
  apply Nat.mod_upper_bound. discriminate.
Qed.

Lemma choice_empty (w : World) :
  choice env [] w
  = (Raise (IndexError "Cannot choose from an empty sequence"), w).
Proof. reflexivity. Qed.

(** A pass up to the decoded image. *)
Lemma download_pass_fetch (ids : list string) (w : World) (img : ImageFile) :
  ids <> [] ->
  downloads_as env (picked env ids w) img ->
  download_pass env self orientation ids w
  = (if (1 <? length ids)%nat then
       if pixel_aligned orientation img then ret (img, true, ids)
       else
         bind (list_remove (picked env ids w) ids)
           (fun ids' => ret (img, false, ids'))
     else ret (img, true, ids)) (after_download env self ids w).
Proof.
  intros Hne (code & content & Hresp & Hok & Hopen).
  unfold download_pass. unfold bind at 1. rewrite (choice_nonempty _ _ Hne).
  unfold bind at 1. unfold requests_get_original.
  rewrite Hresp, raise_for_status_ok by exact Hok.
  unfold bind at 1. rewrite Hopen. unfold emit. simpl.
  unfold after_download, original_request. rewrite <- app_assoc. reflexivity.
Qed.

Lemma more_than_one_nonempty (ids : list string) :
  (1 < length ids)%nat -> ids <> [].
Proof. destruct ids; simpl; [lia|discriminate]. Qed.

Lemma exactly_one_nonempty (ids : list string) :
  length ids = 1%nat -> ids <> [].
Proof. destruct ids; simpl; [lia|discriminate]. Qed.

(** More than one candidate and a mismatching image: the picked id is taken
    off the list and the pass asks for another round. *)
Lemma download_pass_mismatch (ids : list string) (w : World) (img : ImageFile) :
  (1 < length ids)%nat ->
  downloads_as env (picked env ids w) img ->
  pixel_aligned orientation img = false ->
  exists ids',
    remove_first (picked env ids w) ids = Some ids'
    /\ download_pass env self orientation ids w
       = (Return (img, false, ids'), after_download env self ids w).
Proof.
  intros Hlen Hdl Hpix.
  pose proof (more_than_one_nonempty _ Hlen) as Hne.
  destruct (remove_first_In _ _ (picked_In ids w Hne)) as (ids' & Hrm & _).
  exists ids'. split; [exact Hrm|].
  rewrite (download_pass_fetch _ _ _ Hne Hdl).
  apply Nat.ltb_lt in Hlen. rewrite Hlen, Hpix.
  unfold bind, list_remove. rewrite Hrm. reflexivity.
Qed.

(** More than one candidate and a matching image: accepted. *)
Lemma download_pass_match (ids : list string) (w : World) (img : ImageFile) :
  (1 < length ids)%nat ->
  downloads_as env (picked env ids w) img ->
  pixel_aligned orientation img = true ->
  download_pass env self orientation ids w
  = (Return (img, true, ids), after_download env self ids w).
Proof.
  intros Hlen Hdl Hpix.
  rewrite (download_pass_fetch _ _ _ (more_than_one_nonempty _ Hlen) Hdl).
  apply Nat.ltb_lt in Hlen. now rewrite Hlen, Hpix.
Qed.

(** One candidate: accepted, and [pixel_aligned] is not consulted. *)
Lemma download_pass_single (ids : list string) (w : World) (img : ImageFile) :
  length ids = 1%nat ->
  downloads_as env (picked env ids w) img ->
  download_pass env self orientation ids w
  = (Return (img, true, ids), after_download env self ids w).
Proof.
  intros Hlen Hdl.
  rewrite (download_pass_fetch _ _ _ (exactly_one_nonempty _ Hlen) Hdl).
  now rewrite Hlen.
Qed.

Lemma while_not_aligned_accept (fuel : nat) (ids ids' : list string)
    (w w1 : World) (img : ImageFile) :
  download_pass env self orientation ids w = (Return (img, true, ids'), w1) ->
  while_not_aligned env (S fuel) self orientation ids w = (Return img, w1).
Proof.
  intros Hpass. cbn [while_not_aligned]. unfold bind. now rewrite Hpass.
Qed.

Lemma while_not_aligned_retry (fuel : nat) (ids ids' : list string)
    (w w1 : World) (img : ImageFile) :
  download_pass env self orientation ids w = (Return (img, false, ids'), w1) ->
  while_not_aligned env (S fuel) self orientation ids w
  = while_not_aligned env fuel self orientation ids' w1.
Proof.
  intros Hpass. cbn [while_not_aligned]. unfold bind. now rewrite Hpass.
Qed.

Lemma while_not_aligned_raise (fuel : nat) (ids : list string)
    (w w1 : World) (e : exn) :
  download_pass env self orientation ids w = (Raise e, w1) ->
  while_not_aligned env (S fuel) self orientation ids w = (Raise e, w1).
Proof.
  intros Hpass. cbn [while_not_aligned]. unfold bind. now rewrite Hpass.
Qed.

(** C1.  One round of the download loop on the candidates [ids], when the
    download of the picked asset succeeds with image [img]:
    - with more than one candidate and a mismatching image, one occurrence
      of exactly the picked id leaves the list (so on a duplicate-free list
      the id is gone and every other id stays), the loop goes on with the
      shortened list, and its next pick is [random.choice] on that list, one
      of its members;
    - with more than one candidate and a matching image, [img] is returned;
    - with exactly one candidate, [img] is returned whatever its size. *)
Theorem download_round (fuel : nat) (ids : list string) (w : World)
    (img : ImageFile) :
  downloads_as env (picked env ids w) img ->
  ((1 < length ids)%nat -> pixel_aligned orientation img = false ->
   exists ids',
     remove_first (picked env ids w) ids = Some ids'
     /\ Permutation ids (picked env ids w :: ids')
     /\ (List.NoDup ids ->
         forall x, In x ids' <-> In x ids /\ x <> picked env ids w)
     /\ while_not_aligned env (S fuel) self orientation ids w
        = while_not_aligned env fuel self orientation ids' (after_download env self ids w)
     /\ choice env ids' (after_download env self ids w)
        = (Return (picked env ids' (after_download env self ids w)),
           {| trace := trace (after_download env self ids w) ++ [Choice ids'];
              draws := S (draws (after_download env self ids w)) |})
     /\ In (picked env ids' (after_download env self ids w)) ids')
  /\ ((1 < length ids)%nat -> pixel_aligned orientation img = true ->
      while_not_aligned env (S fuel) self orientation ids w
      = (Return img, after_download env self ids w))
  /\ (length ids = 1%nat ->
      while_not_aligned env (S fuel) self orientation ids w
      = (Return img, after_download env self ids w)).
Proof.
  intros Hdl. split; [|split].
  - intros Hlen Hpix.
    destruct (download_pass_mismatch _ _ _ Hlen Hdl Hpix) as (ids' & Hrm & Hpass).
    destruct (remove_first_In _ _ (remove_first_Some_In _ _ _ Hrm))
      as (ids'' & Hrm' & Hperm).
    rewrite Hrm in Hrm'. injection Hrm' as <-.
    assert (Hne' : ids' <> []).
    { apply remove_first_length in Hrm.
      destruct ids'; [simpl in Hrm; lia|discriminate]. }
    exists ids'. split; [exact Hrm|]. split; [exact Hperm|].
    split; [|split; [|split]].
    + intros Hnodup x. split.
      * intros Hx. split.
        -- apply (Permutation_in x (Permutation_sym Hperm)). now right.
        -- intros ->. apply (Permutation_NoDup Hperm) in Hnodup.
           inversion Hnodup; subst. contradiction.
      * intros [Hx Hneq].
        destruct (Permutation_in x Hperm Hx) as [Heq|Hin];
          [congruence|exact Hin].
    + exact (while_not_aligned_retry _ _ _ _ _ _ Hpass).
    + exact (choice_nonempty _ _ Hne').
    + exact (picked_In _ _ Hne').
  - intros Hlen Hpix.
    exact (while_not_aligned_accept _ _ _ _ _ _
             (download_pass_match _ _ _ Hlen Hdl Hpix)).
  - intros Hlen.
    exact (while_not_aligned_accept _ _ _ _ _ _
             (download_pass_single _ _ _ Hlen Hdl)).
Qed.

(** *** Termination *)

(** What a pass over a non-empty candidate list can do: raise, accept, or
    (with more than one candidate) drop the picked id and ask for another
    round.  It never runs out of fuel. *)
Lemma download_pass_outcome (ids : list string) (w : World) :
  ids <> [] ->
  (exists e,
     download_pass env self orientation ids w = (Raise e, after_download env self ids w))
  \/ (exists img,
        download_pass env self orientation ids w
        = (Return (img, true, ids), after_download env self ids w))
  \/ (exists img ids',
        (1 < length ids)%nat
        /\ remove_first (picked env ids w) ids = Some ids'
        /\ download_pass env self orientation ids w
           = (Return (img, false, ids'), after_download env self ids w)).
Proof.
  intros Hne.
  destruct (asset_original env (picked env ids w)) as [code content|] eqn:Hresp.
  - destruct ((400 <=? code)%Z && (code <? 600)%Z) eqn:Hcode.
    + left. exists (HTTPError code).
      unfold download_pass. unfold bind at 1.
      rewrite (choice_nonempty _ _ Hne).
      unfold bind at 1. unfold requests_get_original. rewrite Hresp.
      unfold raise_for_status. rewrite Hcode.
      unfold raise, emit, after_download, original_request. simpl.
      now rewrite <- app_assoc.
    + assert (Hok : status_ok code).
      { unfold status_ok. apply andb_false_iff in Hcode.
        destruct Hcode as [H|H]; [apply Z.leb_gt in H|apply Z.ltb_ge in H]; lia. }
      destruct (Image_open env content) as [e|img] eqn:Hopen.
      * left. exists e.
        unfold download_pass. unfold bind at 1.
        rewrite (choice_nonempty _ _ Hne).
        unfold bind at 1. unfold requests_get_original.
        rewrite Hresp, raise_for_status_ok by exact Hok.
        unfold bind at 1. rewrite Hopen.
        unfold lift, raise, emit, after_download, original_request. simpl.
        now rewrite <- app_assoc.
      * assert (Hdl : downloads_as env (picked env ids w) img)
          by (exists code, content; auto).
        destruct (Nat.lt_ge_cases 1 (length ids)) as [Hlen|Hlen].
        -- destruct (pixel_aligned orientation img) eqn:Hpix.
           ++ right. left. exists img.
              exact (download_pass_match _ _ _ Hlen Hdl Hpix).
           ++ right. right.
              destruct (download_pass_mismatch _ _ _ Hlen Hdl Hpix)
                as (ids' & Hrm & Hpass).
              exists img, ids'. auto.
        -- right. left. exists img. apply download_pass_single; [|exact Hdl].
           destruct ids as [|a [|b ids]]; simpl in *; [congruence|reflexivity|lia].
  - left. exists ConnectionError.
    unfold download_pass. unfold bind at 1.
    rewrite (choice_nonempty _ _ Hne).
    unfold bind at 1. unfold requests_get_original. rewrite Hresp.
    unfold raise_for_status, raise, emit, after_download, original_request.
    simpl. now rewrite <- app_assoc.
Qed.

(** A pass that asks for another round has shortened the list by one. *)
Lemma download_pass_retry_shrinks (ids ids' : list string) (w w1 : World)
    (img : ImageFile) :
  download_pass env self orientation ids w = (Return (img, false, ids'), w1) ->
  remove_first (picked env ids w) ids = Some ids'
  /\ w1 = after_download env self ids w
  /\ length ids = S (length ids').
Proof.
  intros Hpass. destruct ids as [|a ids0] eqn:Hids.
  - discriminate Hpass.
  - rewrite <- Hids in *.
    assert (Hne : ids <> []) by (rewrite Hids; discriminate).
    destruct (download_pass_outcome ids w Hne)
      as [(e & H)|[(img' & H)|(img' & ids'' & _ & Hrm & H)]];
      rewrite H in Hpass; try discriminate.
    injection Hpass as -> -> ->.
    split; [exact Hrm|]. split; [reflexivity|].
    exact (remove_first_length _ _ _ Hrm).
Qed.

Lemma while_not_aligned_bounded :
  forall (fuel : nat) (ids : list string) (w : World),
    ids <> [] ->
    (length ids <= fuel)%nat ->
    exists r w' rounds,
      while_not_aligned env fuel self orientation ids w = (r, w')
      /\ r <> OutOfFuel
      /\ trace w' = trace w ++ flat_map (round_events self) rounds
      /\ (1 <= length rounds <= length ids)%nat.
Proof.
  induction fuel as [|fuel IH]; intros ids w Hne Hfuel.
  - destruct ids; [congruence|simpl in Hfuel; lia].
  - assert (Hpos : (1 <= length ids)%nat)
      by (destruct ids; [congruence|simpl; lia]).
    destruct (download_pass_outcome ids w Hne)
      as [(e & H)|[(img & H)|(img & ids' & Hlen & Hrm & H)]].
    + exists (Raise e), (after_download env self ids w), [(ids, picked env ids w)].
      rewrite (while_not_aligned_raise _ _ _ _ _ H).
      repeat split; [discriminate|simpl; lia|simpl; lia].
    + exists (Return img), (after_download env self ids w), [(ids, picked env ids w)].
      rewrite (while_not_aligned_accept _ _ _ _ _ _ H).
      repeat split; [discriminate|simpl; lia|simpl; lia].
    + pose proof (remove_first_length _ _ _ Hrm) as Hshrink.
      assert (Hne' : ids' <> []) by (destruct ids'; [simpl in *; lia|discriminate]).
      destruct (IH ids' (after_download env self ids w) Hne' ltac:(lia))
        as (r & w' & rounds & Hrun & Hr & Htrace & Hrounds).
      exists r, w', ((ids, picked env ids w) :: rounds).
      rewrite (while_not_aligned_retry _ _ _ _ _ _ H).
      repeat split; [exact Hrun|exact Hr| |simpl; lia|simpl; lia].
      rewrite Htrace. simpl. now rewrite <- app_assoc.
Qed.

(** Fuel beyond the length of the list changes nothing. *)
Lemma while_not_aligned_fuel :
  forall (fuel : nat) (ids : list string) (w : World),
    ids <> [] ->
    (length ids <= fuel)%nat ->
    while_not_aligned env fuel self orientation ids w
    = while_not_aligned env (length ids) self orientation ids w.
Proof.
  induction fuel as [|fuel IH]; intros ids w Hne Hfuel.
  - destruct ids; [congruence|simpl in Hfuel; lia].
  - destruct (length ids) as [|n] eqn:Hn; [destruct ids; [congruence|discriminate]|].
    destruct (download_pass_outcome ids w Hne)
      as [(e & H)|[(img & H)|(img & ids' & Hlen & Hrm & H)]].
    + now rewrite !(while_not_aligned_raise _ _ _ _ _ H).
    + now rewrite !(while_not_aligned_accept _ _ _ _ _ _ H).
    + rewrite !(while_not_aligned_retry _ _ _ _ _ _ H).
      pose proof (remove_first_length _ _ _ Hrm) as Hshrink.
      assert (Hl : n = length ids') by lia. subst n.
      apply IH; [|lia].
      destruct ids'; [simpl in *; lia|discriminate].
Qed.

(** C4.  On a non-empty candidate list of n ids, with fuel for n rounds, the
    download loop comes to an end (it returns an image or raises; it does
    not run out of fuel) after at least one and at most n rounds, each of
    one pick and one download, and with the same result as with exactly n
    rounds of fuel; and a round that asks for another one leaves a list
    that is shorter by one. *)
Theorem while_not_aligned_terminates (fuel : nat) (ids : list string)
    (w : World) :
  ids <> [] ->
  (length ids <= fuel)%nat ->
  (exists r w' rounds,
     while_not_aligned env fuel self orientation ids w = (r, w')
     /\ while_not_aligned env (length ids) self orientation ids w = (r, w')
     /\ r <> OutOfFuel
     /\ trace w' = trace w ++ flat_map (round_events self) rounds
     /\ (1 <= length rounds <= length ids)%nat)
  /\ (forall img ids' w1,
        download_pass env self orientation ids w
        = (Return (img, false, ids'), w1) ->
        (length ids' < length ids)%nat).
Proof.
  intros Hne Hfuel. split.
  - destruct (while_not_aligned_bounded fuel ids w Hne Hfuel)
      as (r & w' & rounds & Hrun & Hr & Htrace & Hrounds).
    exists r, w', rounds.
    split; [exact Hrun|]. split; [|auto].
    now rewrite <- (while_not_aligned_fuel fuel ids w Hne Hfuel).
  - intros img ids' w1 Hpass.
    destruct (download_pass_retry_shrinks _ _ _ _ _ Hpass) as (_ & _ & Hlen).
    lia.
Qed.

(** [get_image] once the album and its candidates are found: the loop is
    entered with the list [get_asset_ids] returned, and what it raises is
    not caught. *)
Lemma get_image_enters_loop (fuel : nat) (album album_id : string)
    (w w1 w2 : World) (ids0 : list string) :
  get_album_id env self album w = (Return album_id, w1) ->
  get_asset_ids env fuel self album_id orientation w1 = (Return ids0, w2) ->
  get_image env fuel self album orientation w
  = match while_not_aligned env fuel self orientation ids0 w2 with
    | (Return img, w3) => (Return (Some img), w3)
    | (Raise e, w3) => (Raise e, w3)
    | (OutOfFuel, w3) => (OutOfFuel, w3)
    end.
Proof.
  intros Hid Hids. unfold get_image, bind, try_except.
  rewrite Hid, Hids.
  destruct (while_not_aligned env fuel self orientation ids0 w2) as [[img|e|] w3];
    reflexivity.
Qed.

(** What the lookup raises is caught, and [get_image] returns [None]. *)
Lemma get_image_lookup_failure (fuel : nat) (album : string) (w w1 : World)
    (e : exn) :
  get_album_id env self album w = (Raise e, w1) ->
  get_image env fuel self album orientation w = (Return None, w1).
Proof.
  intros Hid. unfold get_image, bind, try_except. now rewrite Hid.
Qed.

(** *** The candidates across rounds *)

(** The relation follows the loop: from a reached state the loop goes on as
    if entered there. *)
Lemma loop_reaches_run (ids ids' : list string) (w w' : World) :
  loop_reaches env self orientation ids w ids' w' ->
  exists n, forall fuel,
    while_not_aligned env (n + fuel) self orientation ids w
    = while_not_aligned env fuel self orientation ids' w'.
Proof.
  induction 1 as [ids w|ids ids1 ids2 w w1 w2 img Hpass _ [n IH]].
  - exists 0%nat. reflexivity.
  - exists (S n). intros fuel. cbn [Nat.add].
    rewrite (while_not_aligned_retry _ _ _ _ _ _ Hpass). apply IH.
Qed.

Lemma loop_reaches_incl (ids ids' : list string) (w w' : World) :
  loop_reaches env self orientation ids w ids' w' -> incl ids' ids.
Proof.
  induction 1 as [ids w|ids ids1 ids2 w w1 w2 img Hpass _ IH].
  - apply incl_refl.
  - destruct (download_pass_retry_shrinks _ _ _ _ _ Hpass) as (Hrm & _ & _).
    apply (incl_tran IH). exact (remove_first_incl _ _ _ Hrm).
Qed.

Lemma get_asset_ids_Return (fuel : nat) (album_id : string) (w w0 : World)
    (ids0 : list string) :
  get_asset_ids env fuel self album_id orientation w = (Return ids0, w0) ->
  exists all_items,
    while_page_items env fuel self album_id [] true 1 w
    = (Return all_items, w0)
    /\ ids0 = map asset_id (get_aligned_images all_items orientation).
Proof.
  unfold get_asset_ids, bind.
  destruct (while_page_items env fuel self album_id [] true 1 w)
    as [[all_items| |] w1]; try discriminate.
  intros H. injection H as <- <-. eauto.
Qed.

(** C9.  When [get_asset_ids] has returned the candidates, then at the head
    of every round of the download loop each id still on the list is the id
    of an asset of the album that passed the EXIF test for the orientation;
    and a list of exactly one id is accepted as soon as its download
    succeeds, whatever the size of the image. *)
Theorem candidates_exif_aligned (fuel : nat) (album_id : string)
    (w w0 : World) (ids0 : list string) :
  get_asset_ids env fuel self album_id orientation w = (Return ids0, w0) ->
  exists all_items,
    while_page_items env fuel self album_id [] true 1 w
    = (Return all_items, w0)
    /\ forall ids w',
         loop_reaches env self orientation ids0 w0 ids w' ->
         (forall id, In id ids ->
            exists asset,
              In asset all_items
              /\ asset_id asset = id
              /\ exif_aligned orientation asset = true
              /\ ((orientation = "horizontal"
                   /\ (exifImageWidth asset > exifImageHeight asset)%Z)
                  \/ (orientation = "vertical"
                      /\ (exifImageWidth asset < exifImageHeight asset)%Z)))
         /\ (length ids = 1%nat ->
             forall img,
               downloads_as env (picked env ids w') img ->
               download_pass env self orientation ids w'
               = (Return (img, true, ids), after_download env self ids w')).
Proof.
  intros Hids.
  destruct (get_asset_ids_Return _ _ _ _ _ Hids) as (all_items & Hloop & ->).
  exists all_items. split; [exact Hloop|].
  intros ids w' Hreach. split.
  - intros id Hid.
    apply (loop_reaches_incl _ _ _ _ Hreach) in Hid.
    apply in_map_iff in Hid. destruct Hid as (asset & Heq & Hin).
    rewrite get_aligned_images_filter in Hin.
    apply filter_In in Hin. destruct Hin as [Hin Hal].
    exists asset. repeat split; try assumption.
    now apply exif_aligned_cases.
  - intros Hlen img Hdl. exact (download_pass_single _ _ _ Hlen Hdl).
Qed.

End Download.

Lemma pano_downloads :
  downloads_as Run.env "pano" Run.pano_img.
Proof.
  exists 200%Z, (Sample.encode "pano").
  split; [reflexivity|]. split; [unfold status_ok; lia|reflexivity].
Defined.

Lemma download_round_witness :
  exists ids',
    remove_first "pano" ["wide"; "pano"] = Some ids'
    /\ while_not_aligned Run.env 2 Sample.immich "horizontal" ["wide"; "pano"]
         Sample.w0
       = while_not_aligned Run.env 1 Sample.immich "horizontal" ids'
           (after_download Run.env Sample.immich ["wide"; "pano"] Sample.w0).
Proof.
  destruct (proj1 (download_round Run.env Sample.immich "horizontal" 1%nat
                     ["wide"; "pano"] Sample.w0 Run.pano_img
                     pano_downloads))
    as (ids' & Hrm & _ & _ & Hloop & _).
  - simpl. lia.
  - reflexivity.
  - exists ids'. split; [exact Hrm|exact Hloop].
Defined.

Lemma while_not_aligned_terminates_witness :
  exists r w' (rounds : list (list string * string)),
    while_not_aligned Run.env 2 Sample.immich "horizontal" ["wide"; "pano"]
      Sample.w0 = (r, w')
    /\ r <> OutOfFuel
    /\ (1 <= length rounds <= 2)%nat.
Proof.
  destruct (proj1 (while_not_aligned_terminates Run.env Sample.immich
                     "horizontal" 2%nat ["wide"; "pano"] Sample.w0
                     ltac:(discriminate) ltac:(simpl; lia)))
    as (r & w' & rounds & Hrun & _ & Hr & _ & Hrounds).
  exists r, w', rounds. split; [exact Hrun|]. split; [exact Hr|exact Hrounds].
Defined.

Lemma candidates_exif_aligned_witness :
  exists ids0 w0,
    get_asset_ids Run.env 3 Sample.immich "alb-1" "horizontal" Sample.w0
    = (Return ids0, w0)
    /\ exists all_items,
         forall id, In id ids0 ->
           exists asset,
             In asset all_items
             /\ asset_id asset = id
             /\ exif_aligned "horizontal" asset = true.
Proof.
  eexists. eexists. split; [vm_compute; reflexivity|].
  destruct (candidates_exif_aligned Run.env Sample.immich "horizontal" 3%nat
              "alb-1" Sample.w0 _ _ eq_refl)
    as (all_items & _ & Hinv).
  exists all_items. intros id Hid.
  destruct (proj1 (Hinv _ _ (reaches_entry _ _ _ _ _)) id Hid)
    as (asset & Hin & Hidq & Hal & _).
  exists asset. auto.
Defined.

(** ** An album without a candidate *)

(** C6.  On an album whose only asset is square, the orientation filter
    leaves no candidate, and [get_image] raises the [IndexError] of
    [random.choice] on the empty list; it is outside the [try] block of
    [get_image], and [generate_image] lets it through instead of raising its
    "Failed to load image" [RuntimeError]. *)
Theorem get_image_no_candidate_IndexError :
  let env := Sample.service [Sample.holiday] [[Sample.square]]
               (fun _ => 0%nat) in
  get_asset_ids env 3 Sample.immich "alb-1" "horizontal" Sample.w0
  = (Return [],
     {| trace := [page_request Sample.immich "alb-1" 1;
                  page_request Sample.immich "alb-1" 2];
        draws := 0 |})
  /\ fst (get_image env 3 Sample.immich "Holiday" "horizontal" Sample.w0)
     = Raise (IndexError "Cannot choose from an empty sequence")
  /\ fst (generate_image env 3 Sample.settings_immich
            (Sample.device "horizontal") Sample.w0)
     = Raise (IndexError "Cannot choose from an empty sequence").
Proof. repeat split; vm_compute; reflexivity. Qed.

(** ** Further properties of [get_album_id] *)



(** X1.  When the service lists an album of the requested name,
    [get_album_id] returns the id of the first such album of the list, and
    its only effect is the one request for the album list. *)
Theorem get_album_id_returns_first (env : Env) (self : ImmichProvider)
    (code : Z) (before after : list Album) (a : Album) (w : World) :
  list_albums env = Response code (before ++ a :: after) ->
  status_ok code ->
  Forall (fun b => albumName b <> albumName a) before ->
  get_album_id env self (albumName a) w
  = (Return (album_id a),
     {| trace := trace w
                 ++ [HttpGet (base_url self +:+ "/api/albums")
                       [("x-api-key", key self)]];
        draws := draws w |}).
Proof. apply get_album_id_first_match. Qed.

Lemma get_album_id_returns_first_witness :
  get_album_id
    (Sample.service [Sample.family; Sample.holiday; Sample.holiday2] []
       (fun _ => 0%nat))
    Sample.immich "Holiday" Sample.w0
  = (Return "alb-1",
     {| trace := [HttpGet "http://photos.local/api/albums"
                    [("x-api-key", "secret")]];
        draws := 0 |}).
Proof.
  apply (get_album_id_returns_first
           (Sample.service [Sample.family; Sample.holiday; Sample.holiday2] []
              (fun _ => 0%nat))
           Sample.immich 200 [Sample.family] [Sample.holiday2] Sample.holiday
           Sample.w0).
  - reflexivity.
  - unfold status_ok. lia.
  - repeat constructor. simpl. discriminate.
Defined.


(** ** Further properties of [get_aligned_images] *)

Lemma get_aligned_images_other (assets : list Asset) (orientation : string) :
  orientation <> "horizontal" ->
  orientation <> "vertical" ->
  get_aligned_images assets orientation = [].
Proof.
  intros Hh Hv. rewrite get_aligned_images_filter.
  apply eqb_string_false in Hh. apply eqb_string_false in Hv.
  induction assets as [|a assets IH]; [reflexivity|].
  simpl. unfold exif_aligned at 1. rewrite Hh, Hv. exact IH.
Qed.

(** X3.  The orientation is compared as a string: for any orientation other
    than "horizontal" and "vertical" (so also for "Horizontal"),
    [get_aligned_images] returns the empty list whatever the assets. *)
Theorem get_aligned_images_unknown_orientation (assets : list Asset)
    (orientation : string) :
  orientation <> "horizontal" ->
  orientation <> "vertical" ->
  get_aligned_images assets orientation = [].
Proof. apply get_aligned_images_other. Qed.

Lemma get_aligned_images_unknown_orientation_witness :
  get_aligned_images [Sample.wide; Sample.tall; Sample.square] "Horizontal"
  = [].
Proof.
  apply get_aligned_images_unknown_orientation; discriminate.
Defined.

(** Of the three tests on the EXIF size, exactly one holds. *)
Lemma exif_trichotomy (a : Asset) :
  (Nat.b2n (exif_aligned "horizontal" a)
   + Nat.b2n (exif_aligned "vertical" a)
   + Nat.b2n (exif_square a))%nat = 1%nat.
Proof.
  unfold exif_aligned, exif_square. simpl. rewrite orb_false_r, Z.gtb_ltb.
  destruct (Z.ltb_spec (exifImageHeight a) (exifImageWidth a));
    destruct (Z.ltb_spec (exifImageWidth a) (exifImageHeight a));
    destruct (Z.eqb_spec (exifImageWidth a) (exifImageHeight a));
    simpl; lia.
Qed.

(** X4.  The two orientations and the squares split every asset list: the
    assets kept for "horizontal", those kept for "vertical" and the square
    ones are together as many as the input, and no asset is kept for both
    orientations. *)
Theorem get_aligned_images_partition (assets : list Asset) :
  (length (get_aligned_images assets "horizontal")
   + length (get_aligned_images assets "vertical")
   + length (List.filter exif_square assets))%nat
  = length assets
  /\ forall a,
       ~ (In a (get_aligned_images assets "horizontal")
          /\ In a (get_aligned_images assets "vertical")).
Proof.
  rewrite !get_aligned_images_filter. split.
  - induction assets as [|a assets IH]; [reflexivity|].
    cbn [List.filter].
    pose proof (exif_trichotomy a) as Htri.
    destruct (exif_aligned "horizontal" a);
      destruct (exif_aligned "vertical" a);
      destruct (exif_square a); cbn [length Nat.b2n] in *; lia.
  - intros a [Hh Hv]. apply filter_In in Hh, Hv.
    destruct Hh as [_ Hh]. destruct Hv as [_ Hv].
    apply exif_aligned_horizontal in Hh. apply exif_aligned_vertical in Hv.
    lia.
Qed.

(** X5.  [get_aligned_images] keeps the order of its input and works item
    by item: on a concatenation it gives the concatenation of the results,
    and filtering its result again changes nothing. *)
Theorem get_aligned_images_app (xs ys : list Asset) (orientation : string) :
  get_aligned_images (xs ++ ys) orientation
  = get_aligned_images xs orientation ++ get_aligned_images ys orientation
  /\ get_aligned_images (get_aligned_images xs orientation) orientation
     = get_aligned_images xs orientation.
Proof.
  rewrite !get_aligned_images_filter. split.
  - apply List.filter_app.
  - induction xs as [|a xs IH]; [reflexivity|].
    simpl. destruct (exif_aligned orientation a) eqn:Ha; [|exact IH].
    simpl. rewrite Ha. now f_equal.
Qed.

(** ** [generate_settings_template] *)

(** X6.  The settings template is the base template with one key assigned:
    under ['api_key'] it holds the entry [required = True], [service =
    "Immich"], [expected_key = "IMMICH_KEY"], also when the base template
    had an ['api_key'] of its own, and every other key holds what the base
    template held. *)
Theorem generate_settings_template_lookup {V : Type}
    (super_template : gmap string V) (k : string) :
  generate_settings_template super_template !! "api_key"
  = Some (inl (Template.mk_api_key_entry true "Immich" "IMMICH_KEY"))
  /\ (k <> "api_key" ->
      generate_settings_template super_template !! k
      = inr <$> super_template !! k).
Proof.
  unfold generate_settings_template. split.
  - apply lookup_insert_eq.
  - intros Hk. rewrite lookup_insert_ne by congruence. apply lookup_fmap.
Qed.

Lemma generate_settings_template_lookup_witness :
  generate_settings_template
    (<["api_key" := "none"]> (<["style" := "dark"]> (∅ : gmap string string)))
  !! "style"
  = Some (inr "dark").
Proof.
  rewrite (proj2 (generate_settings_template_lookup
                    (<["api_key" := "none"]>
                       (<["style" := "dark"]> (∅ : gmap string string)))
                    "style")).
  - vm_compute. reflexivity.
  - discriminate.
Defined.

(** ** Further properties of the pagination *)

Section MorePagination.

Variable env : Env.
Variable self : ImmichProvider.
Variable album_id : string.

Lemma page_requests_snoc (first : Z) (n : nat) :
  page_requests self album_id first (S n)
  = page_requests self album_id first n
    ++ [page_request self album_id (first + Z.of_nat n)].
Proof.
  unfold page_requests. now rewrite seq_S, map_app.
Qed.

Lemma nonempty_more (l : list Asset) :
  l <> [] -> negb (Nat.eqb (length l) 0) = true.
Proof. destruct l; [congruence|reflexivity]. Qed.

(** The loop over a run of served non-empty pages. *)
Lemma while_page_items_prefix (pages : list (list Asset)) :
  forall (fuel : nat) (first : Z) (all_items : list Asset) (w : World),
    Forall (fun l => l <> []) pages ->
    (forall i l, pages !! i = Some l ->
                 serves env album_id (first + Z.of_nat i) l) ->
    while_page_items env (length pages + fuel) self album_id all_items true
      first w
    = while_page_items env fuel self album_id (all_items ++ concat pages) true
        (first + Z.of_nat (length pages))
        {| trace := trace w ++ page_requests self album_id first (length pages);
           draws := draws w |}.
Proof.
  induction pages as [|l pages IH]; intros fuel first all_items w Hne Hsrv.
  - cbn [length concat Nat.add]. unfold page_requests. cbn [seq map].
    rewrite !app_nil_r, Z.add_0_r. destruct w. reflexivity.
  - cbn [length Nat.add].
    assert (Hl : serves env album_id first l).
    { specialize (Hsrv 0%nat l eq_refl). now rewrite Z.add_0_r in Hsrv. }
    rewrite (while_page_items_step _ _ _ _ _ _ _ _ Hl).
    inversion Hne as [|? ? Hl_ne Hne']; subst.
    rewrite (nonempty_more _ Hl_ne), IH.
    + cbn [concat]. rewrite page_requests_cons. unfold emit. cbn [trace draws].
      rewrite <- !app_assoc.
      replace (first + 1 + Z.of_nat (length pages))%Z
        with (first + Z.of_nat (S (length pages)))%Z by lia.
      reflexivity.
    + exact Hne'.
    + intros i l' Hi. specialize (Hsrv (S i) l' Hi).
      now replace (first + 1 + Z.of_nat i)%Z with (first + Z.of_nat (S i))%Z
        by lia.
Qed.

Lemma get_aligned_images_concat (pages : list (list Asset))
    (orientation : string) :
  get_aligned_images (concat pages) orientation
  = concat (map (fun l => get_aligned_images l orientation) pages).
Proof.
  induction pages as [|l pages IH]; [reflexivity|].
  cbn [concat map]. rewrite !get_aligned_images_filter in *.
  now rewrite List.filter_app, IH.
Qed.

(** X7.  Filtering composes with pagination page by page: for k non-empty
    pages followed by an empty one, the ids [get_asset_ids] returns are, in
    page order, the ids of the assets of each page that pass the EXIF test
    (so an asset listed on two pages is returned twice). *)
Theorem get_asset_ids_per_page (pages : list (list Asset)) (fuel : nat)
    (orientation : string) (w : World) :
  Forall (fun l => l <> []) pages ->
  (forall i l, pages !! i = Some l ->
               serves env album_id (1 + Z.of_nat i) l) ->
  serves env album_id (1 + Z.of_nat (length pages)) [] ->
  (length pages < fuel)%nat ->
  fst (get_asset_ids env fuel self album_id orientation w)
  = Return
      (concat
         (map (fun l => map asset_id (get_aligned_images l orientation))
            pages)).
Proof.
  intros Hne Hsrv Hend Hfuel.
  unfold get_asset_ids, bind.
  rewrite (while_page_items_pages env self album_id pages fuel 1 [] w
             Hne Hsrv Hend Hfuel).
  cbn [fst app]. unfold ret. cbn [fst]. f_equal.
  now rewrite get_aligned_images_concat, concat_map, map_map.
Qed.

(** X8.  An error status on a page aborts the listing: after k non-empty
    pages, a status from 400 to 599 on page k+1 makes [get_asset_ids] raise
    [HTTPError] with that status after exactly k+1 requests; the items
    collected so far are not returned. *)
Theorem get_asset_ids_page_error (pages : list (list Asset)) (fuel : nat)
    (orientation : string) (w : World) (code : Z) (res : SearchResult) :
  Forall (fun l => l <> []) pages ->
  (forall i l, pages !! i = Some l ->
               serves env album_id (1 + Z.of_nat i) l) ->
  search_metadata env (search_body album_id (1 + Z.of_nat (length pages)))
  = Response code res ->
  (400 <= code < 600)%Z ->
  (length pages < fuel)%nat ->
  get_asset_ids env fuel self album_id orientation w
  = (Raise (HTTPError code),
     {| trace := trace w
                 ++ page_requests self album_id 1 (S (length pages));
        draws := draws w |}).
Proof.
  intros Hne Hsrv Hresp Hcode Hfuel.
  replace fuel with (length pages + S (fuel - S (length pages)))%nat by lia.
  unfold get_asset_ids. unfold bind at 1.
  rewrite (while_page_items_prefix pages _ 1 [] w Hne Hsrv).
  cbn [while_page_items]. unfold bind at 1. unfold requests_post_search.
  rewrite Hresp. unfold raise_for_status.
  replace ((400 <=? code)%Z && (code <? 600)%Z) with true.
  - unfold raise, emit. cbn [trace draws].
    rewrite page_requests_snoc, <- app_assoc. reflexivity.
  - symmetry. apply andb_true_iff. split; [apply Z.leb_le|apply Z.ltb_lt]; lia.
Qed.

(** X9.  The listing ends only at an empty page: against a service that
    answers every page from 1 on with at least one item (one that ignores
    the page number, say), [get_asset_ids] runs out of every amount of
    fuel, that is, the Python loop does not come to an end. *)
Theorem get_asset_ids_endless (fuel : nat) (orientation : string) (w : World) :
  (forall p, (1 <= p)%Z -> exists l, l <> [] /\ serves env album_id p l) ->
  fst (get_asset_ids env fuel self album_id orientation w) = OutOfFuel.
Proof.
  intros Hall. unfold get_asset_ids, bind.
  pose proof (while_page_items_needs_empty_page env self album_id fuel 1 [] w
                Hall) as Hloop.
  destruct (while_page_items env fuel self album_id [] true 1 w)
    as [[l|e|] w']; simpl in Hloop; try discriminate. reflexivity.
Qed.

End MorePagination.

Lemma get_asset_ids_per_page_witness :
  fst (get_asset_ids
         (Sample.service [Sample.holiday]
            [[Sample.wide; Sample.tall]; [Sample.square; Sample.pano]]
            (fun _ => 0%nat))
         3 Sample.immich "alb-1" "horizontal" Sample.w0)
  = Return (["wide"] ++ ["pano"]).
Proof.
  apply (get_asset_ids_per_page
           (Sample.service [Sample.holiday]
              [[Sample.wide; Sample.tall]; [Sample.square; Sample.pano]]
              (fun _ => 0%nat))
           Sample.immich "alb-1"
           [[Sample.wide; Sample.tall]; [Sample.square; Sample.pano]]
           3 "horizontal" Sample.w0).
  - repeat constructor; discriminate.
  - intros [|[|i]] l Hl; simpl in Hl; try discriminate;
      injection Hl as <-; exists 200%Z; eexists;
      (split; [reflexivity|split; [unfold status_ok; lia|reflexivity]]).
  - exists 200%Z. eexists.
    split; [reflexivity|split; [unfold status_ok; lia|reflexivity]].
  - simpl. lia.
Defined.

Lemma get_asset_ids_page_error_witness :
  get_asset_ids Cases.failing_page 2 Sample.immich "alb-1" "horizontal"
    Sample.w0
  = (Raise (HTTPError 500),
     {| trace := [page_request Sample.immich "alb-1" 1;
                  page_request Sample.immich "alb-1" 2];
        draws := 0 |}).
Proof.
  apply (get_asset_ids_page_error Cases.failing_page Sample.immich "alb-1"
           [[Sample.wide; Sample.tall]] 2 "horizontal" Sample.w0 500
           (mkSearchResult None)).
  - repeat constructor; discriminate.
  - intros [|i] l Hl; simpl in Hl; try discriminate.
    injection Hl as <-. exists 200%Z. eexists.
    split; [reflexivity|split; [unfold status_ok; lia|reflexivity]].
  - reflexivity.
  - lia.
  - simpl. lia.
Defined.

Lemma get_asset_ids_endless_witness :
  fst (get_asset_ids Cases.endless 50 Sample.immich "alb-1" "horizontal"
         Sample.w0)
  = OutOfFuel.
Proof.
  apply get_asset_ids_endless.
  intros p _. exists [Sample.wide]. split; [discriminate|].
  exists 200%Z. eexists.
  split; [reflexivity|split; [unfold status_ok; lia|reflexivity]].
Defined.

(** ** Further properties of the download loop and of [get_image] *)

Section MoreDownload.

Variable env : Env.
Variable self : ImmichProvider.
Variable orientation : string.

Lemma download_pass_empty (w : World) :
  download_pass env self orientation [] w
  = (Raise (IndexError "Cannot choose from an empty sequence"), w).
Proof. reflexivity. Qed.

Lemma while_not_aligned_empty (fuel : nat) (w : World) :
  while_not_aligned env (S fuel) self orientation [] w
  = (Raise (IndexError "Cannot choose from an empty sequence"), w).
Proof. reflexivity. Qed.

(** What a pass that returns has done. *)
Lemma download_pass_Return (ids ids' : list string) (w w1 : World)
    (img : ImageFile) (aligned : bool) :
  download_pass env self orientation ids w
  = (Return (img, aligned, ids'), w1) ->
  ids <> []
  /\ w1 = after_download env self ids w
  /\ downloads_as env (picked env ids w) img
  /\ if aligned
     then ids' = ids
          /\ (((1 < length ids)%nat /\ pixel_aligned orientation img = true)
              \/ length ids = 1%nat)
     else (1 < length ids)%nat
          /\ pixel_aligned orientation img = false
          /\ remove_first (picked env ids w) ids = Some ids'.
Proof.
  intros Hpass.
  assert (Hne : ids <> []).
  { intros ->. rewrite download_pass_empty in Hpass. discriminate. }
  split; [exact Hne|].
  destruct (asset_original env (picked env ids w)) as [code content|] eqn:Hresp.
  - destruct ((400 <=? code)%Z && (code <? 600)%Z) eqn:Hcode.
    + exfalso. revert Hpass.
      unfold download_pass. unfold bind at 1.
      rewrite (choice_nonempty _ _ _ Hne).
      unfold bind at 1. unfold requests_get_original. rewrite Hresp.
      unfold raise_for_status. rewrite Hcode. discriminate.
    + assert (Hok : status_ok code).
      { unfold status_ok. apply andb_false_iff in Hcode.
        destruct Hcode as [H|H]; [apply Z.leb_gt in H|apply Z.ltb_ge in H]; lia. }
      destruct (Image_open env content) as [e|img0] eqn:Hopen.
      * exfalso. revert Hpass.
        unfold download_pass. unfold bind at 1.
        rewrite (choice_nonempty _ _ _ Hne).
        unfold bind at 1. unfold requests_get_original.
        rewrite Hresp, raise_for_status_ok by exact Hok.
        unfold bind at 1. rewrite Hopen. discriminate.
      * assert (Hdl : downloads_as env (picked env ids w) img0)
          by (exists code, content; auto).
        rewrite (download_pass_fetch _ _ _ _ _ _ Hne Hdl) in Hpass.
        destruct (1 <? length ids)%nat eqn:Hlen.
        -- apply Nat.ltb_lt in Hlen.
           destruct (pixel_aligned orientation img0) eqn:Hpix.
           ++ injection Hpass as <- <- <- <-. auto 6.
           ++ unfold bind, list_remove in Hpass.
              destruct (remove_first (picked env ids w) ids) as [l|] eqn:Hrm;
                [|discriminate].
              injection Hpass as <- <- <- <-. auto 6.
        -- apply Nat.ltb_ge in Hlen. injection Hpass as <- <- <- <-.
           repeat split; try assumption. right.
           destruct ids as [|a [|b ids]]; simpl in *; [congruence|reflexivity|lia].
  - exfalso. revert Hpass.
    unfold download_pass. unfold bind at 1.
    rewrite (choice_nonempty _ _ _ Hne).
    unfold bind at 1. unfold requests_get_original. rewrite Hresp.
    discriminate.
Qed.

(** X10.  When the download loop returns an image, that image is the decoded
    download of an id of the list the loop was entered with, and either it
    passed the pixel test of line 92 or it belongs to the last candidate
    left (which was not tested). *)
Theorem while_not_aligned_returns :
  forall (fuel : nat) (ids : list string) (w w' : World) (img : ImageFile),
    while_not_aligned env fuel self orientation ids w = (Return img, w') ->
    exists last wl,
      loop_reaches env self orientation ids w last wl
      /\ In (picked env last wl) ids
      /\ downloads_as env (picked env last wl) img
      /\ w' = after_download env self last wl
      /\ (((1 < length last)%nat /\ pixel_aligned orientation img = true)
          \/ length last = 1%nat).
Proof.
  induction fuel as [|fuel IH]; intros ids w w' img Hrun; [discriminate|].
  cbn [while_not_aligned] in Hrun. unfold bind in Hrun.
  destruct (download_pass env self orientation ids w)
    as [[[[img0 aligned] ids']|e|] w1] eqn:Hpass; try discriminate.
  destruct (download_pass_Return _ _ _ _ _ _ Hpass) as (Hne & -> & Hdl & Hcase).
  destruct aligned.
  - injection Hrun as <- <-. destruct Hcase as [-> Hal].
    exists ids, w. repeat split; try assumption.
    + constructor.
    + now apply picked_In.
  - destruct Hcase as (Hlen & Hpix & Hrm).
    destruct (IH _ _ _ _ Hrun) as (last & wl & Hreach & Hin & Hdl' & Hw' & Hal).
    exists last, wl. repeat split; try assumption.
    + econstructor; eassumption.
    + exact (remove_first_incl _ _ _ Hrm _ Hin).
Qed.

(** The effects of the loop, whatever its outcome and its fuel. *)
Lemma while_not_aligned_rounds :
  forall (fuel : nat) (ids : list string) (w : World),
    exists rounds,
      trace (snd (while_not_aligned env fuel self orientation ids w))
      = trace w ++ flat_map (round_events self) rounds
      /\ draws (snd (while_not_aligned env fuel self orientation ids w))
         = (draws w + length rounds)%nat
      /\ incl (map snd rounds) ids
      /\ (List.NoDup ids -> List.NoDup (map snd rounds))
      /\ (length rounds <= length ids)%nat.
Proof.
  induction fuel as [|fuel IH]; intros ids w.
  - exists []. simpl. rewrite app_nil_r, Nat.add_0_r.
    repeat split; auto using incl_nil_l, List.NoDup_nil with arith.
  - destruct ids as [|a ids0] eqn:Hids.
    + exists []. rewrite while_not_aligned_empty. simpl.
      rewrite app_nil_r, Nat.add_0_r.
      repeat split; auto using incl_nil_l, List.NoDup_nil.
    + rewrite <- Hids.
      assert (Hne : ids <> []) by (rewrite Hids; discriminate).
      assert (Hpos : (1 <= length ids)%nat)
        by (rewrite Hids; simpl; lia).
      clear Hids a ids0.
      pose proof (picked_In env ids w Hne) as Hpick.
      destruct (download_pass_outcome env self orientation ids w Hne)
        as [(e & H)|[(img & H)|(img & ids' & Hlen & Hrm & H)]].
      * exists [(ids, picked env ids w)].
        rewrite (while_not_aligned_raise _ _ _ _ _ _ _ _ H). simpl.
        repeat split; try lia.
        -- intros x [<-|[]]. exact Hpick.
        -- intros _. repeat constructor. simpl. tauto.
      * exists [(ids, picked env ids w)].
        rewrite (while_not_aligned_accept _ _ _ _ _ _ _ _ _ H). simpl.
        repeat split; try lia.
        -- intros x [<-|[]]. exact Hpick.
        -- intros _. repeat constructor. simpl. tauto.
      * rewrite (while_not_aligned_retry _ _ _ _ _ _ _ _ _ H).
        destruct (IH ids' (after_download env self ids w))
          as (rounds & Htrace & Hdraws & Hincl & Hnodup & Hlen').
        pose proof (remove_first_length _ _ _ Hrm) as Hshrink.
        destruct (remove_first_In _ _ Hpick) as (ids'' & Hrm' & Hperm).
        rewrite Hrm in Hrm'. injection Hrm' as <-.
        exists ((ids, picked env ids w) :: rounds).
        rewrite Htrace, Hdraws. simpl. rewrite <- app_assoc. simpl.
        repeat split; try lia.
        -- intros x [<-|Hx]; [exact Hpick|].
           exact (remove_first_incl _ _ _ Hrm _ (Hincl x Hx)).
        -- intros Hnd. apply (Permutation_NoDup Hperm) in Hnd.
           inversion Hnd as [|? ? Hnotin Hnd']; subst.
           constructor; [|now apply Hnodup].
           intros Hin. apply Hnotin. now apply Hincl.
Qed.

(** X11.  The loop never downloads an id of a duplicate-free list twice: its
    effects are a sequence of rounds, each one pick followed by the download
    of the id picked; there are at most as many rounds as candidates, each
    consumes one random draw, the ids downloaded are candidates, and they
    are pairwise distinct. *)
Theorem while_not_aligned_no_repeat (fuel : nat) (ids : list string)
    (w : World) :
  List.NoDup ids ->
  exists rounds,
    trace (snd (while_not_aligned env fuel self orientation ids w))
    = trace w ++ flat_map (round_events self) rounds
    /\ draws (snd (while_not_aligned env fuel self orientation ids w))
       = (draws w + length rounds)%nat
    /\ incl (map snd rounds) ids
    /\ List.NoDup (map snd rounds)
    /\ (length rounds <= length ids)%nat.
Proof.
  intros Hnd.
  destruct (while_not_aligned_rounds fuel ids w)
    as (rounds & Htrace & Hdraws & Hincl & Hnodup & Hlen).
  exists rounds. auto 6.
Qed.

(** X12.  A failure of the lookup is swallowed: when [get_album_id] raises,
    or when it returns and [get_asset_ids] raises, [get_image] returns
    [None] in the world the failing call left, without a pick and without
    a download. *)
Theorem get_image_lookup_None (fuel : nat) (album : string) (w : World) :
  (forall e w1,
     get_album_id env self album w = (Raise e, w1) ->
     get_image env fuel self album orientation w = (Return None, w1))
  /\ (forall album_id w1 e w2,
        get_album_id env self album w = (Return album_id, w1) ->
        get_asset_ids env fuel self album_id orientation w1 = (Raise e, w2) ->
        get_image env fuel self album orientation w = (Return None, w2)).
Proof.
  split.
  - intros e w1 Hid. exact (get_image_lookup_failure _ _ _ _ _ _ _ _ Hid).
  - intros album_id w1 e w2 Hid Hids.
    unfold get_image, bind, try_except. now rewrite Hid, Hids.
Qed.

(** X13.  A failure of the download is not swallowed: when the lookup gives
    a non-empty candidate list and the service answers the first download
    with a status from 400 to 599, [get_image] raises [HTTPError] with that
    status (it does not return [None]) after one pick and one request. *)
Theorem get_image_download_error (fuel : nat) (album album_id : string)
    (w w1 w2 : World) (ids0 : list string) (code : Z) (content : bytes) :
  get_album_id env self album w = (Return album_id, w1) ->
  get_asset_ids env (S fuel) self album_id orientation w1 = (Return ids0, w2) ->
  ids0 <> [] ->
  asset_original env (picked env ids0 w2) = Response code content ->
  (400 <= code < 600)%Z ->
  get_image env (S fuel) self album orientation w
  = (Raise (HTTPError code), after_download env self ids0 w2).
Proof.
  intros Hid Hids Hne Hresp Hcode.
  rewrite (get_image_enters_loop _ _ _ _ _ _ _ _ _ _ Hid Hids).
  assert (Hpass : download_pass env self orientation ids0 w2
                  = (Raise (HTTPError code), after_download env self ids0 w2)).
  { unfold download_pass. unfold bind at 1.
    rewrite (choice_nonempty _ _ _ Hne).
    unfold bind at 1. unfold requests_get_original. rewrite Hresp.
    unfold raise_for_status.
    replace ((400 <=? code)%Z && (code <? 600)%Z) with true
      by (symmetry; apply andb_true_iff;
          split; [apply Z.leb_le|apply Z.ltb_lt]; lia).
    unfold raise, emit, after_download, original_request. simpl.
    now rewrite <- app_assoc. }
  now rewrite (while_not_aligned_raise _ _ _ _ _ _ _ _ Hpass).
Qed.

(** X14.  With no candidate, [get_image] raises: when the lookup succeeds
    and [get_asset_ids] returns the empty list, [get_image] raises the
    [IndexError] of [random.choice], with no further effect. *)
Theorem get_image_no_candidates (fuel : nat) (album album_id : string)
    (w w1 w2 : World) :
  get_album_id env self album w = (Return album_id, w1) ->
  get_asset_ids env (S fuel) self album_id orientation w1 = (Return [], w2) ->
  get_image env (S fuel) self album orientation w
  = (Raise (IndexError "Cannot choose from an empty sequence"), w2).
Proof.
  intros Hid Hids.
  rewrite (get_image_enters_loop _ _ _ _ _ _ _ _ _ _ Hid Hids).
  now rewrite while_not_aligned_empty.
Qed.

(** X15.  For an orientation other than "horizontal" and "vertical",
    [get_image] never returns an image: it returns [None] (failed lookup),
    raises the [IndexError] of the empty choice, or the listing does not
    end. *)
Theorem get_image_unknown_orientation (fuel : nat) (album : string)
    (w : World) :
  orientation <> "horizontal" ->
  orientation <> "vertical" ->
  match fst (get_image env fuel self album orientation w) with
  | Return (Some _) => False
  | Return None => True
  | Raise e => e = IndexError "Cannot choose from an empty sequence"
  | OutOfFuel => True
  end.
Proof.
  intros Hh Hv. unfold get_image, bind, try_except.
  destruct (get_album_id env self album w) as [[album_id|e|] w1];
    simpl; try exact I.
  unfold get_asset_ids, bind.
  destruct (while_page_items env fuel self album_id [] true 1 w1)
    as [[all_items|e|] w2] eqn:Hloop; simpl; try exact I.
  rewrite (get_aligned_images_other _ _ Hh Hv). simpl.
  destruct fuel as [|fuel]; [exact I|]. reflexivity.
Qed.

End MoreDownload.

Lemma while_not_aligned_returns_witness :
  exists last wl,
    loop_reaches Run.env Sample.immich "horizontal" ["wide"; "pano"] Sample.w0
      last wl
    /\ downloads_as Run.env (picked Run.env last wl)
         (mkImage 4000 3000 (Sample.encode "wide")).
Proof.
  destruct (while_not_aligned_returns Run.env Sample.immich "horizontal" 2%nat
              ["wide"; "pano"] Sample.w0 _ _ eq_refl)
    as (last & wl & Hreach & _ & Hdl & _).
  exists last, wl. split; [exact Hreach|exact Hdl].
Defined.

Lemma while_not_aligned_no_repeat_witness :
  exists rounds : list (list string * string),
    List.NoDup (map snd rounds) /\ (length rounds <= 2)%nat.
Proof.
  destruct (while_not_aligned_no_repeat Run.env Sample.immich "horizontal"
              5%nat ["wide"; "pano"] Sample.w0)
    as (rounds & _ & _ & _ & Hnd & Hlen).
  - repeat constructor; simpl; intuition discriminate.
  - exists rounds. split; [exact Hnd|exact Hlen].
Defined.

Lemma get_image_lookup_None_witness :
  get_image (Sample.service [Sample.family] [] (fun _ => 0%nat)) 3
    Sample.immich "Holiday" "horizontal" Sample.w0
  = (Return None,
     {| trace := [HttpGet "http://photos.local/api/albums"
                    [("x-api-key", "secret")]];
        draws := 0 |}).
Proof.
  apply (proj1 (get_image_lookup_None
                  (Sample.service [Sample.family] [] (fun _ => 0%nat))
                  Sample.immich "horizontal" 3%nat "Holiday" Sample.w0)
           (IndexError "list index out of range")).
  reflexivity.
Defined.

Lemma get_image_download_error_witness :
  fst (get_image Cases.missing_files 3 Sample.immich "Holiday" "horizontal"
         Sample.w0)
  = Raise (HTTPError 404).
Proof.
  erewrite (get_image_download_error Cases.missing_files Sample.immich
              "horizontal" 2%nat "Holiday" "alb-1" Sample.w0 _ _
              ["wide"; "pano"] 404 []).
  - reflexivity.
  - reflexivity.
  - reflexivity.
  - discriminate.
  - reflexivity.
  - lia.
Defined.

Lemma get_image_no_candidates_witness :
  fst (get_image
         (Sample.service [Sample.holiday] [[Sample.square]] (fun _ => 0%nat))
         3 Sample.immich "Holiday" "vertical" Sample.w0)
  = Raise (IndexError "Cannot choose from an empty sequence").
Proof.
  erewrite (get_image_no_candidates
              (Sample.service [Sample.holiday] [[Sample.square]]
                 (fun _ => 0%nat))
              Sample.immich "vertical" 2%nat "Holiday" "alb-1" Sample.w0).
  - reflexivity.
  - reflexivity.
  - reflexivity.
Defined.

Lemma get_image_unknown_orientation_witness :
  match
    fst (get_image Run.env 3 Sample.immich "Holiday" "landscape" Sample.w0)
  with
  | Return (Some _) => False
  | Return None => True
  | Raise e => e = IndexError "Cannot choose from an empty sequence"
  | OutOfFuel => True
  end.
Proof.
  apply get_image_unknown_orientation; discriminate.
Defined.

(** ** The effects of the provider *)

Section ProviderEffects.

Variable env : Env.
Variable self : ImmichProvider.

Lemma while_page_items_requests (album_id : string) :
  forall (fuel : nat) (all_items : list Asset) (more : bool) (p : Z)
         (w : World),
    exists n,
      snd (while_page_items env fuel self album_id all_items more p w)
      = {| trace := trace w ++ page_requests self album_id p n;
           draws := draws w |}.
Proof.
  induction fuel as [|fuel IH]; intros all_items more p w.
  - exists 0%nat. unfold page_requests. simpl. rewrite app_nil_r.
    destruct more, w; reflexivity.
  - destruct more.
    + cbn [while_page_items]. unfold bind at 1. unfold requests_post_search.
      pose proof (raise_for_status_same_world
                    (search_metadata env (search_body album_id p))
                    (emit (page_request self album_id p) w)) as Hw.
      change (HttpPost (base_url self +:+ "/api/search/metadata")
                (search_body album_id p) (headers self))
        with (page_request self album_id p).
      destruct (raise_for_status _ _) as [[res|e|] w1]; simpl in Hw; subst w1.
      * destruct (IH (all_items ++ page_items_of res)
                    (negb (Nat.eqb (length (page_items_of res)) 0))
                    (p + 1)%Z (emit (page_request self album_id p) w))
          as (n & Hn).
        exists (S n). rewrite Hn, page_requests_cons. unfold emit. simpl.
        now rewrite <- app_assoc.
      * exists 1%nat. unfold page_requests. simpl. now rewrite Z.add_0_r.
      * exists 1%nat. unfold page_requests. simpl. now rewrite Z.add_0_r.
    + exists 0%nat. unfold page_requests. simpl. rewrite app_nil_r.
      destruct w; reflexivity.
Qed.

Lemma page_requests_provider (album_id : string) (p : Z) (n : nat) :
  forallb provider_event (page_requests self album_id p n) = true.
Proof.
  apply forallb_forall. intros e He. unfold page_requests in He.
  apply in_map_iff in He. destruct He as (i & <- & _). reflexivity.
Qed.

Lemma rounds_provider (rounds : list (list string * string)) :
  forallb provider_event (flat_map (round_events self) rounds) = true.
Proof.
  induction rounds as [|r rounds IH]; [reflexivity|]. simpl. exact IH.
Qed.

Lemma get_album_id_world (album : string) (w : World) :
  snd (get_album_id env self album w) = emit (albums_request self) w
  /\ fst (get_album_id env self album w) <> OutOfFuel.
Proof.
  unfold get_album_id, bind, requests_get_albums, albums_request.
  destruct (list_albums env) as [code albums|]; simpl;
    [|split; [reflexivity|discriminate]].
  destruct ((400 <=? code)%Z && (code <? 600)%Z); simpl;
    [split; [reflexivity|discriminate]|].
  destruct (List.filter _ albums); simpl; split;
    first [reflexivity|discriminate].
Qed.

Lemma get_asset_ids_world (fuel : nat) (album_id orientation : string)
    (w : World) :
  exists n,
    snd (get_asset_ids env fuel self album_id orientation w)
    = {| trace := trace w ++ page_requests self album_id 1 n;
         draws := draws w |}.
Proof.
  destruct (while_page_items_requests album_id fuel [] true 1 w) as (n & Hn).
  exists n. unfold get_asset_ids, bind.
  destruct (while_page_items env fuel self album_id [] true 1 w)
    as [[all_items|e|] w2]; exact Hn.
Qed.

(** [get_image] by the outcomes of its three steps. *)
Lemma get_image_cases (fuel : nat) (album orientation : string) (w : World) :
  get_image env fuel self album orientation w
  = match get_album_id env self album w with
    | (Return album_id, w1) =>
        match get_asset_ids env fuel self album_id orientation w1 with
        | (Return ids0, w2) =>
            match while_not_aligned env fuel self orientation ids0 w2 with
            | (Return img, w3) => (Return (Some img), w3)
            | (Raise e, w3) => (Raise e, w3)
            | (OutOfFuel, w3) => (OutOfFuel, w3)
            end
        | (Raise e, w2) => (Return None, w2)
        | (OutOfFuel, w2) => (OutOfFuel, w2)
        end
    | (Raise e, w1) => (Return None, w1)
    | (OutOfFuel, w1) => (OutOfFuel, w1)
    end.
Proof.
  unfold get_image, bind, try_except.
  destruct (get_album_id env self album w) as [[album_id|e|] w1];
    try reflexivity.
  destruct (get_asset_ids env fuel self album_id orientation w1)
    as [[ids0|e|] w2]; reflexivity.
Qed.

Lemma get_image_trace (fuel : nat) (album orientation : string) (w : World) :
  exists (album_id : string) (n : nat) (rounds : list (list string * string)),
    trace (snd (get_image env fuel self album orientation w))
    = trace w
      ++ [albums_request self]
      ++ page_requests self album_id 1 n
      ++ flat_map (round_events self) rounds
    /\ draws (snd (get_image env fuel self album orientation w))
       = (draws w + length rounds)%nat.
Proof.
  rewrite get_image_cases.
  destruct (get_album_id_world album w) as [Hw1 Hfuel1].
  destruct (get_album_id env self album w) as [[album_id|e|] w1];
    simpl in Hw1, Hfuel1; subst w1; [| |congruence].
  - destruct (get_asset_ids_world fuel album_id orientation
                (emit (albums_request self) w)) as (n & Hw2).
    destruct (get_asset_ids env fuel self album_id orientation
                (emit (albums_request self) w)) as [[ids0|e|] w2];
      simpl in Hw2; subst w2.
    + match goal with
      | |- context [while_not_aligned env fuel self orientation ids0 ?w2] =>
          destruct (while_not_aligned_rounds env self orientation fuel ids0 w2)
            as (rounds & Htrace & Hdraws & _);
          exists album_id, n, rounds;
          destruct (while_not_aligned env fuel self orientation ids0 w2)
            as [[img|e|] w3]
      end;
        simpl in *; rewrite Htrace, Hdraws;
        (split; [now rewrite <- !app_assoc|reflexivity]).
    + exists album_id, n, []. simpl.
      rewrite app_nil_r, <- app_assoc, Nat.add_0_r. auto.
    + exists album_id, n, []. simpl.
      rewrite app_nil_r, <- app_assoc, Nat.add_0_r. auto.
  - exists "", 0%nat, []. simpl. rewrite Nat.add_0_r. auto.
Qed.

(** X16.  Whatever the service answers and whatever the outcome,
    [get_image] adds to the trace one request for the album list, then
    requests for consecutive pages from page 1 on, then rounds of one pick
    and one download, and nothing else; in particular no [os.system]
    call.  It consumes one random draw per round. *)
Theorem get_image_effects (fuel : nat) (album orientation : string)
    (w : World) :
  exists (album_id : string) (n : nat) (rounds : list (list string * string)),
    trace (snd (get_image env fuel self album orientation w))
    = trace w
      ++ [albums_request self]
      ++ page_requests self album_id 1 n
      ++ flat_map (round_events self) rounds
    /\ draws (snd (get_image env fuel self album orientation w))
       = (draws w + length rounds)%nat.
Proof. apply get_image_trace. Qed.

End ProviderEffects.

(** ** Further properties of [generate_image] *)

Section MorePlugin.

Variable env : Env.
Variable fuel : nat.
Variable settings : gmap string string.
Variable device_config : DeviceConfig.

(** X17.  With the provider "Immich", the required settings are checked in
    the order key, URL, album, an absent value and an empty string counting
    alike as missing: a missing API key gives "Immich API Key not
    configured.", else a missing URL "URL is required.", else a missing
    album "Album is required."; in each case no request is sent. *)
Theorem generate_image_missing_setting (w : World) :
  settings !! "albumProvider" = Some "Immich" ->
  (truthy (env_IMMICH_KEY device_config) = false ->
   generate_image env fuel settings device_config w
   = (Raise (RuntimeError "Immich API Key not configured."), w))
  /\ (truthy (env_IMMICH_KEY device_config) = true ->
      truthy (settings !! "url") = false ->
      generate_image env fuel settings device_config w
      = (Raise (RuntimeError "URL is required."), w))
  /\ (truthy (env_IMMICH_KEY device_config) = true ->
      truthy (settings !! "url") = true ->
      truthy (settings !! "album") = false ->
      generate_image env fuel settings device_config w
      = (Raise (RuntimeError "Album is required."), w)).
Proof.
  intros Hp. apply get_is_true in Hp.
  unfold generate_image, match_albumProvider, case_Immich, bind.
  rewrite Hp. repeat split.
  - intros ->. reflexivity.
  - intros -> ->. reflexivity.
  - intros -> -> ->. reflexivity.
Qed.

(** The [case "Immich"] branch once the three settings are there. *)
Lemma match_albumProvider_configured (url k album : string) (w : World) :
  settings !! "albumProvider" = Some "Immich" ->
  env_IMMICH_KEY device_config = Some k -> k <> "" ->
  settings !! "url" = Some url -> url <> "" ->
  settings !! "album" = Some album -> album <> "" ->
  match_albumProvider env fuel settings device_config (config_orientation device_config) w
  = match get_image env fuel (mkImmichProvider url k (config_orientation device_config)) album
            (config_orientation device_config) w with
    | (Return (Some img), w1) => (Return (Some img), w1)
    | (Return None, w1) =>
        (Raise (RuntimeError "Failed to load image, please check logs."), w1)
    | (Raise e, w1) => (Raise e, w1)
    | (OutOfFuel, w1) => (OutOfFuel, w1)
    end.
Proof.
  intros Hp Hk Hk' Hu Hu' Ha Ha'. apply get_is_true in Hp.
  apply eqb_string_false in Hk', Hu', Ha'.
  unfold match_albumProvider, case_Immich. rewrite Hp, Hk, Hu, Ha.
  unfold truthy. rewrite Hk', Hu', Ha'. cbn [negb default].
  unfold bind.
  destruct (get_image _ _ _ _ _ w) as [[[img|]|e|] w1]; reflexivity.
Qed.

(** X18.  With all settings in place, the two kinds of failure of the
    provider come out differently: when [get_image] returns [None] (the
    lookup failed), [generate_image] raises [RuntimeError("Failed to load
    image, please check logs.")]; when [get_image] raises (a download
    failed, or there was no candidate), [generate_image] raises that same
    exception.  In both cases nothing happens after the provider's last
    effect: no padding, no [os.system]. *)
Theorem generate_image_provider_failure (url k album : string) (w w1 : World) :
  settings !! "albumProvider" = Some "Immich" ->
  env_IMMICH_KEY device_config = Some k -> k <> "" ->
  settings !! "url" = Some url -> url <> "" ->
  settings !! "album" = Some album -> album <> "" ->
  (get_image env fuel (mkImmichProvider url k (config_orientation device_config)) album (config_orientation device_config) w
   = (Return None, w1) ->
   generate_image env fuel settings device_config w
   = (Raise (RuntimeError "Failed to load image, please check logs."), w1))
  /\ (forall e,
        get_image env fuel (mkImmichProvider url k (config_orientation device_config)) album
          (config_orientation device_config) w = (Raise e, w1) ->
        generate_image env fuel settings device_config w = (Raise e, w1)).
Proof.
  intros Hp Hk Hk' Hu Hu' Ha Ha'.
  pose proof (match_albumProvider_configured url k album w
                Hp Hk Hk' Hu Hu' Ha Ha') as Hm.
  split.
  - intros Hget. rewrite Hget in Hm.
    unfold generate_image, bind. now rewrite Hm.
  - intros e Hget. rewrite Hget in Hm.
    unfold generate_image, bind. now rewrite Hm.
Qed.

Lemma match_albumProvider_effects (w : World) :
  exists evs,
    trace (snd (match_albumProvider env fuel settings device_config
                  (config_orientation device_config) w))
    = trace w ++ evs
    /\ forallb provider_event evs = true.
Proof.
  unfold match_albumProvider.
  destruct (get_is settings "albumProvider" "Immich");
    [|exists []; simpl; now rewrite app_nil_r].
  unfold case_Immich.
  destruct (negb (truthy (env_IMMICH_KEY device_config)));
    [exists []; simpl; now rewrite app_nil_r|].
  destruct (negb (truthy (settings !! "url")));
    [exists []; simpl; now rewrite app_nil_r|].
  destruct (negb (truthy (settings !! "album")));
    [exists []; simpl; now rewrite app_nil_r|].
  cbv zeta.
  set (provider := mkImmichProvider _ _ _).
  set (album := default "" (settings !! "album")).
  destruct (get_image_trace env provider fuel album (config_orientation device_config) w)
    as (album_id & n & rounds & Htrace & _).
  exists ([albums_request provider]
          ++ page_requests provider album_id 1 n
          ++ flat_map (round_events provider) rounds).
  split.
  - unfold bind.
    destruct (get_image env fuel provider album (config_orientation device_config) w)
      as [[[img|]|e|] w1]; exact Htrace.
  - rewrite !forallb_app, page_requests_provider, rounds_provider.
    reflexivity.
Qed.

(** X19.  [os.system] is called exactly when [generate_image] returns an
    image and [settings.get('padImage')] is not "true": then the call
    "sudo shutdown now" is the last effect and the only one of its kind; in
    every other case (an exception, or padding asked for) the effects
    contain no [os.system] call at all. *)
Theorem generate_image_shutdown_iff (w : World) :
  exists evs,
    trace (snd (generate_image env fuel settings device_config w))
    = trace w ++ evs
    /\ (((exists img,
            fst (generate_image env fuel settings device_config w)
            = Return img)
         /\ settings !! "padImage" <> Some "true") ->
        exists evs',
          evs = evs' ++ [OsSystem "sudo shutdown now"]
          /\ forallb provider_event evs' = true)
    /\ (~ ((exists img,
              fst (generate_image env fuel settings device_config w)
              = Return img)
           /\ settings !! "padImage" <> Some "true") ->
        forallb provider_event evs = true).
Proof.
  destruct (match_albumProvider_effects w) as (evs0 & Htrace & Hprov).
  unfold generate_image, bind.
  destruct (match_albumProvider env fuel settings device_config (config_orientation device_config) w)
    as [[[img|]|e|] w1]; simpl in Htrace.
  - destruct (get_is settings "padImage" "true") eqn:Hpad.
    + apply get_is_true in Hpad.
      exists evs0. split; [|split].
      * destruct (get_is settings "backgroundOption" "blur").
        -- destruct (pad_image_blur env img _); exact Htrace.
        -- unfold bind.
           destruct (ImageColor_getcolor env _) as [e|c]; [exact Htrace|].
           simpl. destruct (ImageOps_pad env img _ c); exact Htrace.
      * intros [_ Hne]. contradiction.
      * intros _. exact Hprov.
    + apply get_is_false in Hpad.
      exists (evs0 ++ [OsSystem "sudo shutdown now"]). simpl.
      split; [now rewrite Htrace, app_assoc|]. split.
      * intros _. exists evs0. auto.
      * intros Hnot. exfalso. apply Hnot. eauto.
  - exists evs0. simpl. split; [exact Htrace|]. split.
    + intros [[img Himg] _]. discriminate.
    + intros _. exact Hprov.
  - exists evs0. simpl. split; [exact Htrace|]. split.
    + intros [[img Himg] _]. discriminate.
    + intros _. exact Hprov.
  - exists evs0. simpl. split; [exact Htrace|]. split.
    + intros [[img Himg] _]. discriminate.
    + intros _. exact Hprov.
Qed.

(** X20.  Padding with blur: when [padImage] is "true" and
    [backgroundOption] is "blur", the result is that of [pad_image_blur] on
    the provider's image and the canvas, which is the device resolution
    (W, H) swapped to (H, W) exactly when the orientation is "vertical";
    [backgroundColor] is not looked at, and nothing happens to the world
    after the download. *)
Theorem generate_image_pad_blur (w w1 : World) (img : ImageFile) :
  settings !! "padImage" = Some "true" ->
  settings !! "backgroundOption" = Some "blur" ->
  match_albumProvider env fuel settings device_config (config_orientation device_config) w
  = (Return (Some img), w1) ->
  ((config_orientation device_config) = "vertical" ->
   generate_image env fuel settings device_config w
   = lift (pad_image_blur env img
             (snd (resolution device_config), fst (resolution device_config)))
       w1)
  /\ ((config_orientation device_config) <> "vertical" ->
      generate_image env fuel settings device_config w
      = lift (pad_image_blur env img
                (fst (resolution device_config),
                 snd (resolution device_config)))
          w1).
Proof.
  intros Hpad Hblur Himg.
  apply get_is_true in Hpad, Hblur.
  unfold generate_image, bind. rewrite Himg, Hpad, Hblur.
  split.
  - intros ->. reflexivity.
  - intros Hv. apply eqb_string_false in Hv. rewrite Hv.
    destruct (resolution device_config). reflexivity.
Qed.

(** X21.  Padding with a solid colour: when [padImage] is "true" and
    [backgroundOption] is not "blur", a non-empty [backgroundColor] is
    handed to [ImageColor.getcolor] as it is, while an empty one is treated
    like an absent one and the tuple (255, 255, 255) is handed over; the
    colour obtained goes to [ImageOps.pad] with the image and the canvas,
    and an exception of either Pillow call comes out unchanged. *)
Theorem generate_image_pad_colour (w w1 : World) (img : ImageFile) :
  settings !! "padImage" = Some "true" ->
  settings !! "backgroundOption" <> Some "blur" ->
  match_albumProvider env fuel settings device_config (config_orientation device_config) w
  = (Return (Some img), w1) ->
  let pad_with (c : string + Z * Z * Z) :=
    match ImageColor_getcolor env c with
    | inl e => (Raise e, w1)
    | inr colour =>
        lift (ImageOps_pad env img (canvas device_config) colour) w1
    end in
  (forall c, settings !! "backgroundColor" = Some c -> c <> "" ->
             generate_image env fuel settings device_config w
             = pad_with (inl c))
  /\ (settings !! "backgroundColor" = Some "" ->
      generate_image env fuel settings device_config w
      = pad_with (inr (255, 255, 255)%Z))
  /\ (settings !! "backgroundColor" = None ->
      generate_image env fuel settings device_config w
      = pad_with (inr (255, 255, 255)%Z)).
Proof.
  intros Hpad Hblur Himg pad_with.
  apply get_is_true in Hpad. apply get_is_false in Hblur.
  unfold generate_image, bind. rewrite Himg, Hpad, Hblur.
  unfold background_or_white, pad_with, canvas.
  repeat split.
  - intros c -> Hc. apply eqb_string_false in Hc. rewrite Hc.
    destruct (ImageColor_getcolor env _); reflexivity.
  - intros ->. simpl. destruct (ImageColor_getcolor env _); reflexivity.
  - intros ->. destruct (ImageColor_getcolor env _); reflexivity.
Qed.

End MorePlugin.

Lemma generate_image_missing_setting_witness :
  generate_image Run.env 3 Sample.settings_immich Cases.device_without_key
    Sample.w0
  = (Raise (RuntimeError "Immich API Key not configured."), Sample.w0).
Proof.
  destruct (generate_image_missing_setting Run.env 3%nat
              Sample.settings_immich Cases.device_without_key Sample.w0)
    as (Hkey & _ & _).
  - vm_compute. reflexivity.
  - apply Hkey. reflexivity.
Defined.

Lemma generate_image_provider_failure_witness :
  fst (generate_image (Sample.service [Sample.family] [] (fun _ => 0%nat)) 3
         Sample.settings_immich (Sample.device "horizontal") Sample.w0)
  = Raise (RuntimeError "Failed to load image, please check logs.").
Proof.
  edestruct (generate_image_provider_failure
               (Sample.service [Sample.family] [] (fun _ => 0%nat))
               3%nat Sample.settings_immich (Sample.device "horizontal")
               "http://photos.local" "secret" "Holiday" Sample.w0)
    as (Hnone & _).
  - vm_compute. reflexivity.
  - reflexivity.
  - discriminate.
  - vm_compute. reflexivity.
  - discriminate.
  - vm_compute. reflexivity.
  - discriminate.
  - rewrite Hnone; [reflexivity|]. vm_compute. reflexivity.
Defined.

Lemma generate_image_pad_blur_witness :
  fst (generate_image Cases.padding 3 Cases.settings_blur
         (Sample.device "vertical") Sample.w0)
  = Return (mkImage 480 800 (Sample.encode "tall")).
Proof.
  edestruct (generate_image_pad_blur Cases.padding 3%nat Cases.settings_blur
               (Sample.device "vertical") Sample.w0)
    as (Hvertical & _).
  - vm_compute. reflexivity.
  - vm_compute. reflexivity.
  - vm_compute. reflexivity.
  - rewrite Hvertical; reflexivity.
Defined.

Lemma generate_image_pad_colour_witness :
  fst (generate_image Cases.padding 3 Cases.settings_empty_colour
         (Sample.device "horizontal") Sample.w0)
  = Return (mkImage 800 480 (Sample.encode "wide")).
Proof.
  edestruct (generate_image_pad_colour Cases.padding 3%nat
               Cases.settings_empty_colour (Sample.device "horizontal")
               Sample.w0)
    as (_ & Hempty & _).
  - vm_compute. reflexivity.
  - vm_compute. discriminate.
  - vm_compute. reflexivity.
  - rewrite Hempty; [reflexivity|]. vm_compute. reflexivity.
Defined.

(** ** Termination of [get_image] *)

Section Termination.

Variable env : Env.
Variable self : ImmichProvider.
Variable orientation : string.



End Termination.


(** ** Replies without the expected keys *)

(** X23.  A reply that lacks the ["assets"] key, or whose ["assets"] object
    lacks the ["items"] key, ends the listing like an empty page: after k
    non-empty pages, such a reply to the request for page k+1 makes
    [get_asset_ids] return the filtered ids of the k pages, after exactly
    k+1 requests and without raising. *)
Theorem get_asset_ids_missing_keys (env : Env) (self : ImmichProvider)
    (album_id : string) (pages : list (list Asset)) (fuel : nat)
    (orientation : string) (w : World) (code : Z) (res : SearchResult) :
  Forall (fun l => l <> []) pages ->
  (forall i l, pages !! i = Some l ->
               serves env album_id (1 + Z.of_nat i) l) ->
  search_metadata env (search_body album_id (1 + Z.of_nat (length pages)))
  = Response code res ->
  status_ok code ->
  assets res = None \/ assets res = Some (mkAssetsObject None) ->
  (length pages < fuel)%nat ->
  get_asset_ids env fuel self album_id orientation w
  = (Return (map asset_id (get_aligned_images (concat pages) orientation)),
     {| trace := trace w ++ page_requests self album_id 1 (S (length pages));
        draws := draws w |}).
Proof.
  intros Hne Hsrv Hresp Hok Hkeys Hfuel.
  assert (Hend : serves env album_id (1 + Z.of_nat (length pages)) []).
  { exists code, res. repeat split; try assumption.
    unfold page_items_of. destruct Hkeys as [->| ->]; reflexivity. }
  unfold get_asset_ids, bind.
  now rewrite (while_page_items_pages env self album_id pages fuel 1 [] w
                 Hne Hsrv Hend Hfuel).
Qed.

Lemma get_asset_ids_missing_keys_witness :
  get_asset_ids Cases.keyless 2 Sample.immich "alb-1" "vertical" Sample.w0
  = (Return ["tall"],
     {| trace := [page_request Sample.immich "alb-1" 1;
                  page_request Sample.immich "alb-1" 2];
        draws := 0 |}).
Proof.
  apply (get_asset_ids_missing_keys Cases.keyless Sample.immich "alb-1"
           [[Sample.wide; Sample.tall]] 2 "vertical" Sample.w0 200
           (mkSearchResult None)).
  - repeat constructor; discriminate.
  - intros [|i] l Hl; simpl in Hl; try discriminate.
    injection Hl as <-. exists 200%Z. eexists.
    split; [reflexivity|split; [unfold status_ok; lia|reflexivity]].
  - reflexivity.
  - unfold status_ok. lia.
  - left. reflexivity.
  - simpl. lia.
Defined.
